(** * mcp-lnc-server: the connection service and the read-only query services

    A shallow embedding of the connection service of package [tools] (the
    pairing-phrase handshake driver), of the request context it runs under
    (package [context] of the repository), of the service
    manager that wires the connection callback, and of the fifteen query
    handlers of the node, invoice, payment, channel, peer and on-chain
    services.

    Conventions.
    - A Go [string] is a sequence of bytes: Rocq's [string].
    - A JSON number is a Go [float64] that came out of a JSON decoder, hence
      a finite rational: [Qc].
    - Time is a logical clock in milliseconds ([Z]); [time.Sleep d] advances
      it by exactly [d], the blocking calls into the relay library and the
      node by the latency the environment announces.
    - Everything owned by an external collaborator (relay library, node RPC
      surface, process environment, [fmt] rendering of success payloads) is
      a field of the environment record [Env]; theorems quantify over it.
    - Effects are explicit: a [World] carries the clock, the process-wide
      TLS configuration of [http.DefaultTransport], the service manager and
      the trace of externally visible events. *)

From Stdlib Require Import ZArith QArith Qcanon Ascii String List Lia Bool.
From stdpp Require Import base option strings gmap list pretty.

Local Open Scope Z_scope.

(** ** Go's [strings] package, as far as the source calls it *)

Module GoStrings.

Definition byte_of (c : ascii) : N := N_of_ascii c.

(** The one-byte white space of [unicode.IsSpace]:
    ['\t'], ['\n'], ['\v'], ['\f'], ['\r'], [' ']. *)
Definition asciiSpace (b : N) : bool :=
  ((9 <=? b) && (b <=? 13) || (b =? 32))%N.

(** Width in bytes of the white-space rune a byte sequence starts with,
    [0%nat] when it starts with none. The multi-byte cases are the UTF-8
    encodings of U+0085, U+00A0, U+1680, U+2000..U+200A, U+2028, U+2029,
    U+202F, U+205F and U+3000. *)
Definition spaceWidth (bs : list ascii) : nat :=
  match map byte_of bs with
  | b0 :: rest =>
      if asciiSpace b0 then 1%nat
      else match rest with
           | b1 :: rest' =>
               if ((b0 =? 194) && ((b1 =? 133) || (b1 =? 160)))%N then 2%nat
               else match rest' with
                    | b2 :: _ =>
                        if ((b0 =? 225) && (b1 =? 154) && (b2 =? 128))%N then 3%nat
                        else if ((b0 =? 226) && (b1 =? 128) &&
                                 (((128 <=? b2) && (b2 <=? 138)) ||
                                  (b2 =? 168) || (b2 =? 169) || (b2 =? 175)))%N
                             then 3%nat
                        else if ((b0 =? 226) && (b1 =? 129) && (b2 =? 159))%N then 3%nat
                        else if ((b0 =? 227) && (b1 =? 128) && (b2 =? 128))%N then 3%nat
                        else 0%nat
                    | [] => 0%nat
                    end
           | [] => 0%nat
           end
  | [] => 0%nat
  end.

(** The same test on a reversed sequence: the width of the white-space
    rune the original sequence ends with. *)
Definition spaceWidthRev (rs : list ascii) : nat :=
  match rs with
  | c0 :: rest =>
      if asciiSpace (byte_of c0) then 1%nat
      else match rest with
           | c1 :: rest' =>
               if Nat.eqb (spaceWidth [c1; c0]) 2 then 2%nat
               else match rest' with
                    | c2 :: _ => if Nat.eqb (spaceWidth [c2; c1; c0]) 3 then 3%nat else 0%nat
                    | [] => 0%nat
                    end
           | [] => 0%nat
           end
  | [] => 0%nat
  end.

(** [TrimLeftFunc s unicode.IsSpace]: one white-space rune per unit of
    fuel; the length of the input is always enough. *)
Fixpoint trimLeftSpace (fuel : nat) (bs : list ascii) : list ascii :=
  match fuel with
  | O => bs
  | S fuel' =>
      match spaceWidth bs with
      | O => bs
      | w => trimLeftSpace fuel' (drop w bs)
      end
  end.

Fixpoint trimLeftSpaceRev (fuel : nat) (rs : list ascii) : list ascii :=
  match fuel with
  | O => rs
  | S fuel' =>
      match spaceWidthRev rs with
      | O => rs
      | w => trimLeftSpaceRev fuel' (drop w rs)
      end
  end.

(** [strings.TrimSpace]: leading white space goes first, then trailing. *)
Definition TrimSpace (s : string) : string :=
  let bs := list_ascii_of_string s in
  let l := trimLeftSpace (length bs) bs in
  string_of_list_ascii (rev (trimLeftSpaceRev (length l) (rev l))).

(** [strings.Split s sep] for a one-byte separator, the only way the
    source calls it. The result is never empty: [Split "" " "] is [[""]]. *)
Fixpoint Split (s : string) (sep : ascii) : list string :=
  match s with
  | EmptyString => [EmptyString]
  | String c rest =>
      if Ascii.eqb c sep then EmptyString :: Split rest sep
      else match Split rest sep with
           | w :: ws => String c w :: ws
           | [] => [String c EmptyString]
           end
  end.

Definition flushField (cur : list ascii) : list string :=
  match cur with
  | [] => []
  | _ => [string_of_list_ascii (rev cur)]
  end.

(** [skip] counts the bytes of a white-space rune still to be passed,
    [cur] is the field being read, last byte first. *)
Fixpoint fieldsFrom (skip : nat) (cur : list ascii) (bs : list ascii) : list string :=
  match bs with
  | [] => flushField cur
  | b :: rest =>
      match skip with
      | S k => fieldsFrom k cur rest
      | O =>
          match spaceWidth bs with
          | O => fieldsFrom 0 (b :: cur) rest
          | S k => flushField cur ++ fieldsFrom k [] rest
          end
      end
  end.

(** [strings.Fields]: the maximal runs of bytes that hold no white space;
    no field is empty. The repository's test of the word count
    ([TestPairingPhraseValidation]) counts words with it. *)
Definition Fields (s : string) : list string :=
  fieldsFrom 0 [] (list_ascii_of_string s).

(** [strings.HasPrefix s p]. *)
Fixpoint HasPrefix (s p : string) : bool :=
  match p, s with
  | EmptyString, _ => true
  | String _ _, EmptyString => false
  | String a p', String b s' => Ascii.eqb a b && HasPrefix s' p'
  end.

(** [strconv.ParseBool]: the value, or [None] for the error. *)
Definition ParseBool (s : string) : option bool :=
  if (String.eqb s "1" || String.eqb s "t" || String.eqb s "T" ||
      String.eqb s "TRUE" || String.eqb s "true" || String.eqb s "True")%bool
  then Some true
  else if (String.eqb s "0" || String.eqb s "f" || String.eqb s "F" ||
           String.eqb s "FALSE" || String.eqb s "false" || String.eqb s "False")%bool
  then Some false
  else None.

End GoStrings.

(** ** Tool-call arguments and results *)

(** A value of the JSON argument map ([map[string]any]). *)
Inductive Value :=
| VNil
| VBool (b : bool)
| VNumber (q : Qc)
| VString (s : string)
| VOther.

(** [v, ok := args[k].(string)] and its siblings; the comma-ok form gives
    the zero value when the assertion fails. *)
Definition asString (v : option Value) : option string :=
  match v with Some (VString s) => Some s | _ => None end.

Definition asBool (v : option Value) : option bool :=
  match v with Some (VBool b) => Some b | _ => None end.

Definition asFloat64 (v : option Value) : option Qc :=
  match v with Some (VNumber q) => Some q | _ => None end.

(** [mcp.NewToolResultError] and [mcp.NewToolResultText]. *)
Inductive CallToolResult :=
| NewToolResultError (msg : string)
| NewToolResultText (text : string).

(** The identity of a [*grpc.ClientConn]. *)
Definition ClientConn := nat.

(** ** The node's RPC surface *)

Module lnrpc.

Record GetInfoResponse := {
  IdentityPubkey : string;
  Alias : string;
  Version : string;
  NumPeers : N;
  NumActiveChannels : N;
  NumInactiveChannels : N;
  NumPendingChannels : N;
  SyncedToChain : bool;
  SyncedToGraph : bool;
  BlockHeight : N;
  BlockHash : string;
  Chains : list string
}.

(** An answer of the node that a handler only reshapes into text. *)
Definition Response := string.

Record Payment := {
  PaymentHash : string;
  paymentBody : Response
}.

Record ListPaymentsResponse := {
  Payments : list Payment;
  paymentsBody : Response
}.

Record ListInvoiceRequest := {
  PendingOnly : bool;
  InvoiceIndexOffset : Z;
  NumMaxInvoices : Z;
  InvoiceReversed : bool
}.

Record ListPaymentsRequest := {
  IncludeIncomplete : bool;
  IndexOffset : Z;
  MaxPayments : Z;
  Reversed : bool
}.

Record ListChannelsRequest := {
  ActiveOnly : bool;
  InactiveOnly : bool;
  PublicOnly : bool;
  PrivateOnly : bool
}.

Record NodeInfoRequest := {
  PubKey : string;
  IncludeChannels : bool
}.

Record ListUnspentRequest := {
  MinConfs : Z;
  MaxConfs : Z;
  UnspentAccount : string
}.

Record GetTransactionsRequest := {
  StartHeight : Z;
  EndHeight : Z;
  TxAccount : string
}.

(** The [lnrpc.LightningClient] interface: a method answers with the
    error text or with the response. *)
Record LightningClient := {
  GetInfo : string + GetInfoResponse;
  WalletBalance : string + Response;
  ChannelBalance : string + Response;
  DecodePayReq : string -> string + Response;
  ListInvoices : ListInvoiceRequest -> string + Response;
  LookupInvoice : list ascii -> string + Response;
  ListPayments : ListPaymentsRequest -> string + ListPaymentsResponse;
  ListChannels : ListChannelsRequest -> string + Response;
  PendingChannels : string + Response;
  ListPeers : string + Response;
  DescribeGraph : bool -> string + Response;
  GetNodeInfo : NodeInfoRequest -> string + Response;
  ListUnspent : ListUnspentRequest -> string + Response;
  GetTransactions : GetTransactionsRequest -> string + Response;
  EstimateFee : Z -> string + Response
}.

(** One RPC put on the wire. *)
Inductive Call :=
| CallGetInfo
| CallWalletBalance
| CallChannelBalance
| CallDecodePayReq (payReq : string)
| CallListInvoices (req : ListInvoiceRequest)
| CallLookupInvoice (rHash : list ascii)
| CallListPayments (req : ListPaymentsRequest)
| CallListChannels (req : ListChannelsRequest)
| CallPendingChannels
| CallListPeers
| CallDescribeGraph (includeUnannounced : bool)
| CallGetNodeInfo (req : NodeInfoRequest)
| CallListUnspent (req : ListUnspentRequest)
| CallGetTransactions (req : GetTransactionsRequest)
| CallEstimateFee (targetConf : Z).

End lnrpc.

(** ** Contexts *)

Inductive CtxError := Canceled | DeadlineExceeded.

(** A [context.Context], seen from the code that waits on it: the instant
    its [Done] channel closes (if ever) and what [Err] reports from then on. *)
Record Context := {
  doneAt : option Z;
  doneErr : CtxError
}.

Definition ctxDone (c : Context) (t : Z) : bool :=
  match doneAt c with
  | Some d => d <=? t
  | None => false
  end.

(** [context.WithTimeout parent timeout], created at instant [t0]. *)
Definition WithTimeout (parent : Context) (t0 timeout : Z) : Context :=
  match doneAt parent with
  | Some d =>
      if d <=? t0 + timeout then parent
      else {| doneAt := Some (t0 + timeout); doneErr := DeadlineExceeded |}
  | None => {| doneAt := Some (t0 + timeout); doneErr := DeadlineExceeded |}
  end.

Module lnccontext.

Record RequestContext := {
  Ctx : Context;
  operation : string;
  startTime : Z;
  deadline : Z
}.

(** What a [context.Context] argument can be at run time. *)
Inductive AnyContext :=
| Plain (c : Context)
| Request (rc : RequestContext).

Definition contextOf (c : AnyContext) : Context :=
  match c with
  | Plain c => c
  | Request rc => Ctx rc
  end.

(** [New parent operation timeout], called at instant [t0]. Without a
    positive timeout the context is only cancellable: it is done when
    its parent is. *)
Definition New (parent : AnyContext) (op : string) (timeout t0 : Z) : RequestContext :=
  {| Ctx := if 0 <? timeout then WithTimeout (contextOf parent) t0 timeout
            else contextOf parent;
     operation := op;
     startTime := t0;
     deadline := t0 + timeout |}.

(** [Ensure ctx operation]: a request context is returned as it is, any
    other context is wrapped with the default timeout of 30 s (the trace
    id it may carry does not change the timing). *)
Definition Ensure (ctx : AnyContext) (op : string) (t0 : Z) : RequestContext :=
  match ctx with
  | Request rc => rc
  | Plain _ => New ctx op 30000 t0
  end.

Definition Done (rc : RequestContext) (t : Z) : bool := ctxDone (Ctx rc) t.
Definition Err (rc : RequestContext) : CtxError := doneErr (Ctx rc).


(** [WithTraceID]: a request context like [New]'s, carrying the trace id it
    was given; the timing is [New]'s. *)
Definition WithTraceID (parent : AnyContext) (op : string) (timeout t0 : Z) : RequestContext :=
  New parent op timeout t0.

(** [rc.Duration()], [rc.TimeRemaining()] and [rc.IsExpired()], asked at
    instant [t]. *)
Definition Duration (rc : RequestContext) (t : Z) : Z := t - startTime rc.
Definition TimeRemaining (rc : RequestContext) (t : Z) : Z := deadline rc - t.
Definition IsExpired (rc : RequestContext) (t : Z) : bool := deadline rc <? t.

End lnccontext.

(** ** The environment: what the external collaborators do *)

(** What [mailbox.NewClientWebsocketConn] hands back: the connector
    function [lndConnect], possibly nil, given by the outcome of invoking
    it (the error text or the connection) and the time the call blocks. *)
Record RelaySession := {
  lndConnect : option (string + ClientConn);
  lndConnectLatency : N
}.

(** Rendering of the success payloads: [fmt.Sprintf] over the answer of the
    node, field by field. *)
Record Formatter := {
  fmtGetInfo : lnrpc.GetInfoResponse -> string -> list string -> string;
  fmtBalance : lnrpc.Response -> lnrpc.Response -> string;
  fmtDecodedInvoice : lnrpc.Response -> string;
  fmtInvoices : lnrpc.Response -> string;
  fmtInvoice : lnrpc.Response -> string;
  fmtPayments : lnrpc.ListPaymentsResponse -> string;
  fmtTrackedPayment : lnrpc.Payment -> string;
  fmtChannels : lnrpc.Response -> string;
  fmtPendingChannels : lnrpc.Response -> string;
  fmtPeers : lnrpc.Response -> string;
  fmtGraph : bool -> lnrpc.Response -> string;
  fmtNodeInfo : bool -> lnrpc.Response -> string;
  fmtUnspent : lnrpc.Response -> string;
  fmtTransactions : lnrpc.Response -> string;
  fmtFeeEstimates : list (Z * lnrpc.Response) -> string
}.

Record Env := {
  (** [os.Getenv] *)
  Getenv : string -> string;
  (** [btcec.NewPrivateKey]: [Some e] when it fails with [e] *)
  NewPrivateKey : option string;
  (** [mailbox.NewClientWebsocketConn mailboxServer pairingPhrase ...]:
      the error text or the session, after [relayLatency] ms *)
  NewClientWebsocketConn : string -> string -> string + RelaySession;
  relayLatency : N;
  (** the instants at which the relay fires the two one-shot callbacks *)
  remoteKeyAt : option Z;
  authAt : option Z;
  (** [lnrpc.NewLightningClient conn]: the node behind a connection *)
  NewLightningClient : ClientConn -> lnrpc.LightningClient;
  getInfoLatency : N;
  (** [conn.Close]: [Some e] when closing reports [e] *)
  Close : ClientConn -> option string;
  formatter : Formatter;
  (** [uint64(f)] and [int32(f)] where [f] is out of the range of the
      target type: Go leaves the result to the implementation *)
  uint64OutOfRange : Qc -> Z;
  int32OutOfRange : Qc -> Z
}.

(** ** The service manager *)

Module NodeService.
Record t := { LightningClient : option lnrpc.LightningClient }.
End NodeService.

Module InvoiceService.
Record t := { LightningClient : option lnrpc.LightningClient }.
End InvoiceService.

Module PaymentService.
Record t := { LightningClient : option lnrpc.LightningClient }.
End PaymentService.

Module ChannelService.
Record t := { LightningClient : option lnrpc.LightningClient }.
End ChannelService.

Module PeerService.
Record t := { LightningClient : option lnrpc.LightningClient }.
End PeerService.

Module OnChainService.
Record t := { LightningClient : option lnrpc.LightningClient }.
End OnChainService.

Record Manager := {
  lncConnection : option ClientConn;
  lightningClient : option lnrpc.LightningClient;
  invoiceService : InvoiceService.t;
  channelService : ChannelService.t;
  paymentService : PaymentService.t;
  onchainService : OnChainService.t;
  peerService : PeerService.t;
  nodeService : NodeService.t
}.

(** [Manager.InitializeServices]: every query service starts with a nil
    client. *)
Definition InitializeServices : Manager :=
  {| lncConnection := None;
     lightningClient := None;
     invoiceService := {| InvoiceService.LightningClient := None |};
     channelService := {| ChannelService.LightningClient := None |};
     paymentService := {| PaymentService.LightningClient := None |};
     onchainService := {| OnChainService.LightningClient := None |};
     peerService := {| PeerService.LightningClient := None |};
     nodeService := {| NodeService.LightningClient := None |} |}.

(** [Manager.onLNCConnectionEstablished]: the connection and the client
    made from it overwrite what the manager and the services held. *)
Definition onLNCConnectionEstablished (env : Env) (conn : ClientConn) (m : Manager) : Manager :=
  let client := Some (NewLightningClient env conn) in
  {| lncConnection := Some conn;
     lightningClient := client;
     invoiceService := {| InvoiceService.LightningClient := client |};
     channelService := {| ChannelService.LightningClient := client |};
     paymentService := {| PaymentService.LightningClient := client |};
     onchainService := {| OnChainService.LightningClient := client |};
     peerService := {| PeerService.LightningClient := client |};
     nodeService := {| NodeService.LightningClient := client |} |}.

(** ** The world the connection service acts on *)

Record TLSConfig := { InsecureSkipVerify : bool }.

(** What the connection service does to the outside, and [EvPoll]: one
    reading of the two callback flags, with the instant and what was read. *)
Inductive Event :=
| EvTLSInsecure
| EvRelayOpen (mailboxServer pairingPhrase : string)
| EvPoll (t : Z) (authReceived remotePubSet : bool)
| EvStatusCheck
| EvLndConnect
| EvGetInfo (conn : ClientConn)
| EvClose (conn : ClientConn)
| EvCallback (conn : ClientConn).

Record World := {
  now : Z;
  (** [http.DefaultTransport.TLSClientConfig], nil until somebody sets it *)
  TLSClientConfig : option TLSConfig;
  manager : Manager;
  (** the events so far, oldest first *)
  trace : list Event
}.

Definition emit (e : Event) (w : World) : World :=
  {| now := now w; TLSClientConfig := TLSClientConfig w;
     manager := manager w; trace := trace w ++ [e] |}.

Definition setNow (t : Z) (w : World) : World :=
  {| now := t; TLSClientConfig := TLSClientConfig w;
     manager := manager w; trace := trace w |}.

(** [time.Sleep d], and any call that blocks for [d]. *)
Definition Sleep (d : Z) (w : World) : World := setNow (now w + d) w.

Definition setTLSClientConfig (c : TLSConfig) (w : World) : World :=
  {| now := now w; TLSClientConfig := Some c;
     manager := manager w; trace := trace w |}.

Definition setManager (m : Manager) (w : World) : World :=
  {| now := now w; TLSClientConfig := TLSClientConfig w;
     manager := m; trace := trace w |}.

(** ** The connection service *)

Record ConnectionService := {
  Connection : option ClientConn;
  ConnectionCallback : option (ClientConn -> Manager -> Manager)
}.

Definition NewConnectionService (callback : option (ClientConn -> Manager -> Manager))
    : ConnectionService :=
  {| Connection := None; ConnectionCallback := callback |}.

(** The ways [connectToLNC] fails, one per [fmt.Errorf] of the source. *)
Inductive ConnectError :=
| ErrPrivateKey (e : string)
| ErrMailbox (e : string)
| ErrCancelled (e : CtxError)
| ErrNoConnector
| ErrLndConnect (e : string)
| ErrGetInfo (e : string).

Definition ctxErrorString (e : CtxError) : string :=
  match e with
  | Canceled => "context canceled"
  | DeadlineExceeded => "context deadline exceeded"
  end.

(** [err.Error()] *)
Definition errorString (e : ConnectError) : string :=
  match e with
  | ErrPrivateKey e => "failed to generate private key: " +:+ e
  | ErrMailbox e => "failed to create mailbox connection: " +:+ e
  | ErrCancelled e => "connection cancelled: " +:+ ctxErrorString e
  | ErrNoConnector => "lndConnect function not available after connection setup"
  | ErrLndConnect e => "failed to establish LND connection: " +:+ e
  | ErrGetInfo e => "connected but failed to get node info: " +:+ e
  end.

Definition gracePeriod : Z := 3000.
Definition maxWaitTime : Z := 5000.
Definition pollInterval : Z := 200.

(** The flags the two callbacks set, as the negotiation reads them at
    instant [t]. *)
Definition fired (at_ : option Z) (t : Z) : bool :=
  match at_ with
  | Some a => a <=? t
  | None => false
  end.

Definition authReceived (env : Env) (t : Z) : bool := fired (authAt env) t.
Definition remotePubSet (env : Env) (t : Z) : bool := fired (remoteKeyAt env) t.

(** The [select] between [time.After(3 * time.Second)] and [reqCtx.Done()]:
    the context wins when it is done before the timer fires. When both are
    ready at the same instant Go takes either; the timer is taken here, and
    the first check of the poll loop, at that same instant, finds the
    context done. *)
Definition graceWait (reqCtx : lnccontext.RequestContext) (w : World)
    : option CtxError * World :=
  match doneAt (lnccontext.Ctx reqCtx) with
  | Some d =>
      if d <? now w + gracePeriod
      then (Some (lnccontext.Err reqCtx), setNow (Z.max (now w) d) w)
      else (None, Sleep gracePeriod w)
  | None => (None, Sleep gracePeriod w)
  end.

(** [for time.Since(waitStart) < maxWaitTime { ... }]: one iteration per
    unit of fuel, [None] when the fuel runs out before the loop ends. *)
Fixpoint pollLoop (env : Env) (reqCtx : lnccontext.RequestContext) (waitStart : Z)
    (fuel : nat) (w : World) : option (option CtxError * World) :=
  match fuel with
  | O => None
  | S fuel' =>
      if now w - waitStart <? maxWaitTime then
        if lnccontext.Done reqCtx (now w) then Some (Some (lnccontext.Err reqCtx), w)
        else
          let a := authReceived env (now w) in
          let r := remotePubSet env (now w) in
          let w1 := emit (EvPoll (now w) a r) w in
          if a && r then Some (None, w1)
          else pollLoop env reqCtx waitStart fuel' (Sleep pollInterval w1)
      else Some (None, w)
  end.

Definition pollFuel : nat := S (Z.to_nat (maxWaitTime / pollInterval)).

Definition insecureTransport (mailboxServer : string) (devMode insecure : bool) : bool :=
  devMode || insecure || GoStrings.HasPrefix mailboxServer "localhost" ||
  GoStrings.HasPrefix mailboxServer "127.0.0.1".

(** The TLS block of [connectToLNC]: for a dev, insecure or loopback
    connection the process-wide transport gets a fresh configuration that
    skips verification. [http.DefaultTransport] is taken to be the
    [*http.Transport] it is unless somebody replaced it. *)
Definition configureTLS (mailboxServer : string) (devMode insecure : bool) (w : World) : World :=
  if insecureTransport mailboxServer devMode insecure
  then emit EvTLSInsecure (setTLSClientConfig {| InsecureSkipVerify := true |} w)
  else w.

(** [ConnectionService.connectToLNC]. The password reaches the function
    and is only logged. The deferred [reqCtx.Cancel()] acts after the
    return and is not observed by anything below. *)
Definition connectToLNC (env : Env) (ctx : lnccontext.AnyContext)
    (pairingPhrase password mailboxServer : string) (devMode insecure : bool)
    (w : World) : option ((ConnectError + ClientConn * lnrpc.GetInfoResponse) * World) :=
  let reqCtx := lnccontext.Ensure ctx "lnc_connect_internal" (now w) in
  match NewPrivateKey env with
  | Some e => Some (inl (ErrPrivateKey e), w)
  | None =>
      let w := configureTLS mailboxServer devMode insecure w in
      let w := Sleep (Z.of_N (relayLatency env)) (emit (EvRelayOpen mailboxServer pairingPhrase) w) in
      match NewClientWebsocketConn env mailboxServer pairingPhrase with
      | inl e => Some (inl (ErrMailbox e), w)
      | inr session =>
          match graceWait reqCtx w with
          | (Some e, w) => Some (inl (ErrCancelled e), w)
          | (None, w) =>
              match lndConnect session with
              | None => Some (inl ErrNoConnector, w)
              | Some connector =>
                  match pollLoop env reqCtx (now w) pollFuel w with
                  | None => None
                  | Some (Some e, w) => Some (inl (ErrCancelled e), w)
                  | Some (None, w) =>
                      let w := emit EvStatusCheck w in
                      let w := Sleep (Z.of_N (lndConnectLatency session)) (emit EvLndConnect w) in
                      match connector with
                      | inl e => Some (inl (ErrLndConnect e), w)
                      | inr conn =>
                          let w := Sleep (Z.of_N (getInfoLatency env)) (emit (EvGetInfo conn) w) in
                          match lnrpc.GetInfo (NewLightningClient env conn) with
                          | inl e => Some (inl (ErrGetInfo e), emit (EvClose conn) w)
                          | inr info => Some (inr (conn, info), w)
                          end
                      end
                  end
              end
          end
      end
  end.

(** [getMailboxServer] *)
Definition getMailboxServer (args : gmap string Value) : string :=
  match args !! "mailbox" with
  | Some (VString mailboxStr) => mailboxStr
  | _ => ""
  end.

Definition mailboxServerOf (env : Env) (args : gmap string Value) : string :=
  let mailboxServer := getMailboxServer args in
  if String.eqb mailboxServer "" then
    let envMailbox := Getenv env "LNC_MAILBOX_SERVER" in
    if negb (String.eqb envMailbox "") then envMailbox
    else "mailbox.terminal.lightning.today:443"
  else mailboxServer.

(** A boolean flag of the request, with its environment default. *)
Definition flagOf (env : Env) (args : gmap string Value) (key envKey : string) : bool :=
  match asBool (args !! key) with
  | Some b => b
  | None =>
      let envVal := Getenv env envKey in
      if negb (String.eqb envVal "") then default false (GoStrings.ParseBool envVal)
      else false
  end.

Definition devModeOf (env : Env) (args : gmap string Value) : bool :=
  flagOf env args "devMode" "LNC_DEV_MODE".

Definition insecureOf (env : Env) (args : gmap string Value) : bool :=
  flagOf env args "insecure" "LNC_INSECURE".

Definition dq : string := String (ascii_of_nat 34) EmptyString.

Definition quoted (s : string) : string := dq +:+ s +:+ dq.

(** The success payload of [HandleConnect]. *)
Definition connectedText (nodeInfo : lnrpc.GetInfoResponse) (mailboxServer : string) : string :=
  "{ " +:+ quoted "connected" +:+ ": true, " +:+
  quoted "node_pubkey" +:+ ": " +:+ quoted (lnrpc.IdentityPubkey nodeInfo) +:+ ", " +:+
  quoted "alias" +:+ ": " +:+ quoted (lnrpc.Alias nodeInfo) +:+ ", " +:+
  quoted "num_channels" +:+ ": " +:+ pretty (lnrpc.NumActiveChannels nodeInfo) +:+ ", " +:+
  quoted "num_peers" +:+ ": " +:+ pretty (lnrpc.NumPeers nodeInfo) +:+ ", " +:+
  quoted "version" +:+ ": " +:+ quoted (lnrpc.Version nodeInfo) +:+ ", " +:+
  quoted "mailbox_server" +:+ ": " +:+ quoted mailboxServer +:+ " }".

(** The word count [HandleConnect] validates. *)
Definition words (pairingPhrase : string) : list string :=
  GoStrings.Split (GoStrings.TrimSpace pairingPhrase) " ".

(** [ConnectionService.HandleConnect], called at instant [now w] under the
    caller's context [ctx]. [LNC_CONNECT_TIMEOUT] is read and only logged. *)
Definition HandleConnect (env : Env) (s : ConnectionService) (ctx : lnccontext.AnyContext)
    (args : gmap string Value) (w : World)
    : option (CallToolResult * ConnectionService * World) :=
  let reqCtx := lnccontext.New ctx "lnc_connect" 45000 (now w) in
  match asString (args !! "pairingPhrase") with
  | None => Some (NewToolResultError "pairingPhrase is required", s, w)
  | Some pairingPhrase =>
      match asString (args !! "password") with
      | None => Some (NewToolResultError "password is required", s, w)
      | Some password =>
          if negb (Nat.eqb (length (words pairingPhrase)) 10)
          then Some (NewToolResultError "pairingPhrase must contain exactly 10 words", s, w)
          else
            let mailboxServer := mailboxServerOf env args in
            let devMode := devModeOf env args in
            let insecure := insecureOf env args in
            match connectToLNC env (lnccontext.Request reqCtx) pairingPhrase password
                    mailboxServer devMode insecure w with
            | None => None
            | Some (inl err, w) =>
                Some (NewToolResultError
                        ("Failed to connect to Lightning node: " +:+ errorString err), s, w)
            | Some (inr (conn, nodeInfo), w) =>
                let s := {| Connection := Some conn;
                            ConnectionCallback := ConnectionCallback s |} in
                let w :=
                  match ConnectionCallback s with
                  | Some callback => emit (EvCallback conn) (setManager (callback conn (manager w)) w)
                  | None => w
                  end in
                Some (NewToolResultText (connectedText nodeInfo mailboxServer), s, w)
            end
      end
  end.

Definition disconnectedText : string :=
  "{ " +:+ quoted "disconnected" +:+ ": true, " +:+
  quoted "message" +:+ ": " +:+ quoted "Disconnected from Lightning node" +:+ " }".

(** [ConnectionService.HandleDisconnect]: the error of [Close] is logged
    and dropped. *)
Definition HandleDisconnect (env : Env) (s : ConnectionService) (w : World)
    : CallToolResult * ConnectionService * World :=
  match Connection s with
  | Some conn =>
      let w := emit (EvClose conn) w in
      let s :=
        match Close env conn with
        | Some _ => {| Connection := None; ConnectionCallback := ConnectionCallback s |}
        | None => {| Connection := None; ConnectionCallback := ConnectionCallback s |}
        end in
      (NewToolResultText disconnectedText, s, w)
  | None => (NewToolResultText disconnectedText, s, w)
  end.

(** ** The query services *)

(** [float64] to integer: the fraction is discarded; a value the target
    type cannot hold is converted as the implementation pleases. *)
Definition truncate (f : Qc) : Z := Z.quot (Qnum (this f)) (Zpos (Qden (this f))).

Definition uint64 (env : Env) (f : Qc) : Z :=
  let t := truncate f in
  if (0 <=? t) && (t <? 2 ^ 64) then t else uint64OutOfRange env f.

Definition int32 (env : Env) (f : Qc) : Z :=
  let t := truncate f in
  if (- 2 ^ 31 <=? t) && (t <? 2 ^ 31) then t else int32OutOfRange env f.

Definition isZero (f : Qc) : bool := Qnum (this f) =? 0.
Definition isPositive (f : Qc) : bool := 0 <? Qnum (this f).

(** [x, _ := args[k].(float64)] and [b, _ := args[k].(bool)] *)
Definition floatArg (args : gmap string Value) (k : string) : Qc :=
  default (Q2Qc 0) (asFloat64 (args !! k)).

Definition boolArg (args : gmap string Value) (k : string) : bool :=
  default false (asBool (args !! k)).

Definition stringArg (args : gmap string Value) (k : string) : string :=
  default "" (asString (args !! k)).

Definition notConnected : string :=
  "Not connected to Lightning node. Use lnc_connect first.".

(** What a handler gives back: the tool result and the RPCs it issued, in
    order. *)
Definition Handled : Type := CallToolResult * list lnrpc.Call.

(** One RPC and the reshaping of its answer. *)
Definition answer {R : Type} (call : lnrpc.Call) (failed : string)
    (render : R -> string) (r : string + R) : Handled :=
  match r with
  | inl err => (NewToolResultError (failed +:+ err), [call])
  | inr resp => (NewToolResultText (render resp), [call])
  end.

(** [NodeService.HandleGetInfo] *)
Definition HandleGetInfo (env : Env) (s : NodeService.t) (args : gmap string Value) : Handled :=
  match NodeService.LightningClient s with
  | None => (NewToolResultError notConnected, [])
  | Some client =>
      match lnrpc.GetInfo client with
      | inl err => (NewToolResultError ("Failed to get node info: " +:+ err), [lnrpc.CallGetInfo])
      | inr info =>
          let chains := lnrpc.Chains info in
          let primaryNetwork := match chains with c :: _ => c | [] => "" end in
          (NewToolResultText (fmtGetInfo (formatter env) info primaryNetwork chains),
           [lnrpc.CallGetInfo])
      end
  end.

(** [NodeService.HandleGetBalance] *)
Definition HandleGetBalance (env : Env) (s : NodeService.t) (args : gmap string Value) : Handled :=
  match NodeService.LightningClient s with
  | None => (NewToolResultError notConnected, [])
  | Some client =>
      match lnrpc.WalletBalance client with
      | inl err =>
          (NewToolResultError ("Failed to get wallet balance: " +:+ err),
           [lnrpc.CallWalletBalance])
      | inr walletBalance =>
          match lnrpc.ChannelBalance client with
          | inl err =>
              (NewToolResultError ("Failed to get channel balance: " +:+ err),
               [lnrpc.CallWalletBalance; lnrpc.CallChannelBalance])
          | inr channelBalance =>
              (NewToolResultText (fmtBalance (formatter env) walletBalance channelBalance),
               [lnrpc.CallWalletBalance; lnrpc.CallChannelBalance])
          end
      end
  end.

(** [InvoiceService.HandleDecodeInvoice] *)
Definition HandleDecodeInvoice (env : Env) (s : InvoiceService.t) (args : gmap string Value) : Handled :=
  match InvoiceService.LightningClient s with
  | None => (NewToolResultError notConnected, [])
  | Some client =>
      match asString (args !! "invoice") with
      | None => (NewToolResultError "invoice is required", [])
      | Some invoice =>
          if (String.length invoice <? 3)%nat || negb (GoStrings.HasPrefix invoice "ln")
          then (NewToolResultError "invalid BOLT11 invoice format", [])
          else answer (lnrpc.CallDecodePayReq invoice) "Failed to decode invoice: "
                 (fmtDecodedInvoice (formatter env)) (lnrpc.DecodePayReq client invoice)
      end
  end.

(** [InvoiceService.HandleListInvoices] *)
Definition HandleListInvoices (env : Env) (s : InvoiceService.t) (args : gmap string Value) : Handled :=
  match InvoiceService.LightningClient s with
  | None => (NewToolResultError notConnected, [])
  | Some client =>
      let pendingOnly := boolArg args "pending_only" in
      let indexOffset := floatArg args "index_offset" in
      let numMaxInvoices := floatArg args "num_max_invoices" in
      let numMaxInvoices := if isZero numMaxInvoices then Q2Qc 100 else numMaxInvoices in
      let reversed := boolArg args "reversed" in
      let req := {| lnrpc.PendingOnly := pendingOnly;
                    lnrpc.InvoiceIndexOffset := uint64 env indexOffset;
                    lnrpc.NumMaxInvoices := uint64 env numMaxInvoices;
                    lnrpc.InvoiceReversed := reversed |} in
      answer (lnrpc.CallListInvoices req) "Failed to list invoices: "
        (fmtInvoices (formatter env)) (lnrpc.ListInvoices client req)
  end.

Definition hexDigit (c : ascii) : option N :=
  let b := GoStrings.byte_of c in
  if ((48 <=? b) && (b <=? 57))%N then Some (b - 48)%N
  else if ((97 <=? b) && (b <=? 102))%N then Some (b - 87)%N
  else if ((65 <=? b) && (b <=? 70))%N then Some (b - 55)%N
  else None.

(** [hex.DecodeString]: [None] for an odd length or a byte that is no
    hexadecimal digit. *)
Fixpoint DecodeString (s : string) : option (list ascii) :=
  match s with
  | EmptyString => Some []
  | String _ EmptyString => None
  | String hi (String lo rest) =>
      match hexDigit hi, hexDigit lo, DecodeString rest with
      | Some h, Some l, Some bytes => Some (ascii_of_N (16 * h + l) :: bytes)
      | _, _, _ => None
      end
  end.

(** [InvoiceService.HandleLookupInvoice] *)
Definition HandleLookupInvoice (env : Env) (s : InvoiceService.t) (args : gmap string Value) : Handled :=
  match InvoiceService.LightningClient s with
  | None => (NewToolResultError notConnected, [])
  | Some client =>
      match asString (args !! "payment_hash") with
      | None => (NewToolResultError "payment_hash is required", [])
      | Some paymentHash =>
          if negb (Nat.eqb (String.length paymentHash) 64)
          then (NewToolResultError "payment_hash must be a 64-character hex string", [])
          else
            match DecodeString paymentHash with
            | None => (NewToolResultError "invalid payment_hash format", [])
            | Some rhashBytes =>
                answer (lnrpc.CallLookupInvoice rhashBytes) "Failed to lookup invoice: "
                  (fmtInvoice (formatter env)) (lnrpc.LookupInvoice client rhashBytes)
            end
      end
  end.

(** [PaymentService.HandleListPayments] *)
Definition HandleListPayments (env : Env) (s : PaymentService.t) (args : gmap string Value) : Handled :=
  match PaymentService.LightningClient s with
  | None => (NewToolResultError notConnected, [])
  | Some client =>
      let includeIncomplete := boolArg args "include_incomplete" in
      let indexOffset := floatArg args "index_offset" in
      let maxPayments := floatArg args "max_payments" in
      let maxPayments := if isZero maxPayments then Q2Qc 100 else maxPayments in
      let reversed := boolArg args "reversed" in
      let req := {| lnrpc.IncludeIncomplete := includeIncomplete;
                    lnrpc.IndexOffset := uint64 env indexOffset;
                    lnrpc.MaxPayments := uint64 env maxPayments;
                    lnrpc.Reversed := reversed |} in
      answer (lnrpc.CallListPayments req) "Failed to list payments: "
        (fmtPayments (formatter env)) (lnrpc.ListPayments client req)
  end.

(** [PaymentService.HandleTrackPayment]: the whole payment history is
    fetched, with the zero pagination of an otherwise empty request. *)
Definition HandleTrackPayment (env : Env) (s : PaymentService.t) (args : gmap string Value) : Handled :=
  match PaymentService.LightningClient s with
  | None => (NewToolResultError notConnected, [])
  | Some client =>
      match asString (args !! "payment_hash") with
      | None => (NewToolResultError "payment_hash is required", [])
      | Some paymentHash =>
          if negb (Nat.eqb (String.length paymentHash) 64)
          then (NewToolResultError "payment_hash must be a 64-character hex string", [])
          else
            let req := {| lnrpc.IncludeIncomplete := true; lnrpc.IndexOffset := 0;
                          lnrpc.MaxPayments := 0; lnrpc.Reversed := false |} in
            match lnrpc.ListPayments client req with
            | inl err =>
                (NewToolResultError ("Failed to fetch payment: " +:+ err),
                 [lnrpc.CallListPayments req])
            | inr resp =>
                match find (fun p => String.eqb (lnrpc.PaymentHash p) paymentHash)
                        (lnrpc.Payments resp) with
                | Some payment =>
                    (NewToolResultText (fmtTrackedPayment (formatter env) payment),
                     [lnrpc.CallListPayments req])
                | None =>
                    (NewToolResultText
                       ("{" +:+ quoted "found" +:+ ": false, " +:+ quoted "message" +:+ ": " +:+
                        quoted "Payment not found" +:+ "}"),
                     [lnrpc.CallListPayments req])
                end
            end
      end
  end.

(** [ChannelService.HandleListChannels] *)
Definition HandleListChannels (env : Env) (s : ChannelService.t) (args : gmap string Value) : Handled :=
  match ChannelService.LightningClient s with
  | None => (NewToolResultError notConnected, [])
  | Some client =>
      let req := {| lnrpc.ActiveOnly := boolArg args "active_only";
                    lnrpc.InactiveOnly := boolArg args "inactive_only";
                    lnrpc.PublicOnly := boolArg args "public_only";
                    lnrpc.PrivateOnly := boolArg args "private_only" |} in
      answer (lnrpc.CallListChannels req) "Failed to list channels: "
        (fmtChannels (formatter env)) (lnrpc.ListChannels client req)
  end.

(** [ChannelService.HandlePendingChannels] *)
Definition HandlePendingChannels (env : Env) (s : ChannelService.t) (args : gmap string Value) : Handled :=
  match ChannelService.LightningClient s with
  | None => (NewToolResultError notConnected, [])
  | Some client =>
      answer lnrpc.CallPendingChannels "Failed to get pending channels: "
        (fmtPendingChannels (formatter env)) (lnrpc.PendingChannels client)
  end.

(** [PeerService.HandleListPeers] *)
Definition HandleListPeers (env : Env) (s : PeerService.t) (args : gmap string Value) : Handled :=
  match PeerService.LightningClient s with
  | None => (NewToolResultError notConnected, [])
  | Some client =>
      answer lnrpc.CallListPeers "Failed to list peers: "
        (fmtPeers (formatter env)) (lnrpc.ListPeers client)
  end.

(** [PeerService.HandleDescribeGraph] *)
Definition HandleDescribeGraph (env : Env) (s : PeerService.t) (args : gmap string Value) : Handled :=
  match PeerService.LightningClient s with
  | None => (NewToolResultError notConnected, [])
  | Some client =>
      let includeUnannounced := boolArg args "include_unannounced" in
      answer (lnrpc.CallDescribeGraph includeUnannounced) "Failed to describe graph: "
        (fmtGraph (formatter env) includeUnannounced) (lnrpc.DescribeGraph client includeUnannounced)
  end.

(** [PeerService.HandleGetNodeInfo] *)
Definition HandleGetNodeInfo (env : Env) (s : PeerService.t) (args : gmap string Value) : Handled :=
  match PeerService.LightningClient s with
  | None => (NewToolResultError notConnected, [])
  | Some client =>
      match asString (args !! "pub_key") with
      | None => (NewToolResultError "pub_key is required", [])
      | Some pubKey =>
          let includeChannels := boolArg args "include_channels" in
          let req := {| lnrpc.PubKey := pubKey; lnrpc.IncludeChannels := includeChannels |} in
          answer (lnrpc.CallGetNodeInfo req) "Failed to get node info: "
            (fmtNodeInfo (formatter env) includeChannels) (lnrpc.GetNodeInfo client req)
      end
  end.

(** [OnChainService.HandleListUnspent] *)
Definition HandleListUnspent (env : Env) (s : OnChainService.t) (args : gmap string Value) : Handled :=
  match OnChainService.LightningClient s with
  | None => (NewToolResultError notConnected, [])
  | Some client =>
      let minConfs := floatArg args "min_confs" in
      let maxConfs := floatArg args "max_confs" in
      let maxConfs := if isZero maxConfs then Q2Qc 9999999 else maxConfs in
      let account := stringArg args "account" in
      let req := {| lnrpc.MinConfs := int32 env minConfs;
                    lnrpc.MaxConfs := int32 env maxConfs;
                    lnrpc.UnspentAccount := account |} in
      answer (lnrpc.CallListUnspent req) "Failed to list unspent: "
        (fmtUnspent (formatter env)) (lnrpc.ListUnspent client req)
  end.

(** [OnChainService.HandleGetTransactions] *)
Definition HandleGetTransactions (env : Env) (s : OnChainService.t) (args : gmap string Value) : Handled :=
  match OnChainService.LightningClient s with
  | None => (NewToolResultError notConnected, [])
  | Some client =>
      let startHeight := floatArg args "start_height" in
      let endHeight := floatArg args "end_height" in
      let endHeight := if isZero endHeight then Q2Qc (-1) else endHeight in
      let account := stringArg args "account" in
      let req := {| lnrpc.StartHeight := int32 env startHeight;
                    lnrpc.EndHeight := int32 env endHeight;
                    lnrpc.TxAccount := account |} in
      answer (lnrpc.CallGetTransactions req) "Failed to get transactions: "
        (fmtTransactions (formatter env)) (lnrpc.GetTransactions client req)
  end.

Definition feeTargets : list Z := [1; 3; 6; 10; 20; 50; 100].

(** The loop of [HandleEstimateFee] over the targets left: the estimates
    gathered and the RPCs issued. *)
Fixpoint estimateFees (env : Env) (client : lnrpc.LightningClient) (targetConf : Qc)
    (targets : list Z) : list (Z * lnrpc.Response) * list lnrpc.Call :=
  match targets with
  | [] => ([], [])
  | target :: rest =>
      if isPositive targetConf && negb (target =? int32 env targetConf)
      then estimateFees env client targetConf rest
      else
        match lnrpc.EstimateFee client target with
        | inl _ =>
            let '(estimates, calls) := estimateFees env client targetConf rest in
            (estimates, lnrpc.CallEstimateFee target :: calls)
        | inr resp =>
            if isPositive targetConf
            then ([(target, resp)], [lnrpc.CallEstimateFee target])
            else
              let '(estimates, calls) := estimateFees env client targetConf rest in
              ((target, resp) :: estimates, lnrpc.CallEstimateFee target :: calls)
        end
  end.

(** [OnChainService.HandleEstimateFee] *)
Definition HandleEstimateFee (env : Env) (s : OnChainService.t) (args : gmap string Value) : Handled :=
  match OnChainService.LightningClient s with
  | None => (NewToolResultError notConnected, [])
  | Some client =>
      let targetConf := floatArg args "target_conf" in
      let targetConf := if isZero targetConf then Q2Qc 6 else targetConf in
      let '(estimates, calls) := estimateFees env client targetConf feeTargets in
      match estimates with
      | [] => (NewToolResultError "Failed to get fee estimates", calls)
      | _ => (NewToolResultText (fmtFeeEstimates (formatter env) estimates), calls)
      end
  end.

(** The tools of the query services, by the name they are registered
    under in [Manager.RegisterTools]. *)
Inductive QueryTool :=
| lnc_decode_invoice | lnc_list_invoices | lnc_lookup_invoice
| lnc_list_channels | lnc_pending_channels
| lnc_list_payments | lnc_track_payment
| lnc_list_unspent | lnc_get_transactions | lnc_estimate_fee
| lnc_list_peers | lnc_describe_graph | lnc_get_node_info
| lnc_get_balance | lnc_get_info.

(** The handler [Manager.RegisterTools] binds to a tool, run on the
    manager's service. *)
Definition dispatch (env : Env) (m : Manager) (tool : QueryTool) (args : gmap string Value) : Handled :=
  match tool with
  | lnc_decode_invoice => HandleDecodeInvoice env (invoiceService m) args
  | lnc_list_invoices => HandleListInvoices env (invoiceService m) args
  | lnc_lookup_invoice => HandleLookupInvoice env (invoiceService m) args
  | lnc_list_channels => HandleListChannels env (channelService m) args
  | lnc_pending_channels => HandlePendingChannels env (channelService m) args
  | lnc_list_payments => HandleListPayments env (paymentService m) args
  | lnc_track_payment => HandleTrackPayment env (paymentService m) args
  | lnc_list_unspent => HandleListUnspent env (onchainService m) args
  | lnc_get_transactions => HandleGetTransactions env (onchainService m) args
  | lnc_estimate_fee => HandleEstimateFee env (onchainService m) args
  | lnc_list_peers => HandleListPeers env (peerService m) args
  | lnc_describe_graph => HandleDescribeGraph env (peerService m) args
  | lnc_get_node_info => HandleGetNodeInfo env (peerService m) args
  | lnc_get_balance => HandleGetBalance env (nodeService m) args
  | lnc_get_info => HandleGetInfo env (nodeService m) args
  end.

(** The service record a tool's handler reads its client from. *)
Definition clientOf (m : Manager) (tool : QueryTool) : option lnrpc.LightningClient :=
  match tool with
  | lnc_decode_invoice | lnc_list_invoices | lnc_lookup_invoice =>
      InvoiceService.LightningClient (invoiceService m)
  | lnc_list_channels | lnc_pending_channels =>
      ChannelService.LightningClient (channelService m)
  | lnc_list_payments | lnc_track_payment =>
      PaymentService.LightningClient (paymentService m)
  | lnc_list_unspent | lnc_get_transactions | lnc_estimate_fee =>
      OnChainService.LightningClient (onchainService m)
  | lnc_list_peers | lnc_describe_graph | lnc_get_node_info =>
      PeerService.LightningClient (peerService m)
  | lnc_get_balance | lnc_get_info =>
      NodeService.LightningClient (nodeService m)
  end.

(** ** Vocabulary of the properties *)

(** The test that ends the poll loop early, at instant [t]. *)
Definition bothFired (env : Env) (t : Z) : bool := authReceived env t && remotePubSet env t.

(** The [k]-th poll of a loop that began at [waitStart]. *)
Definition pollAt (env : Env) (waitStart : Z) (k : nat) : Event :=
  let t := waitStart + pollInterval * Z.of_nat k in
  EvPoll t (authReceived env t) (remotePubSet env t).

Definition isPoll (e : Event) : Prop :=
  match e with EvPoll _ _ _ => True | _ => False end.

(** What the TLS block of [connectToLNC] leaves in the trace. *)
Definition tlsEvents (mailboxServer : string) (devMode insecure : bool) : list Event :=
  if insecureTransport mailboxServer devMode insecure then [EvTLSInsecure] else [].

(** What the negotiation leaves in the trace after the relay was opened:
    polls, the status check, the connector call, the liveness RPC and, only
    when [closes] holds, the closing of a connection. *)
Definition quiet (closes : bool) (e : Event) : Prop :=
  match e with
  | EvPoll _ _ _ | EvStatusCheck | EvLndConnect | EvGetInfo _ => True
  | EvClose _ => closes = true
  | EvTLSInsecure | EvRelayOpen _ _ | EvCallback _ => False
  end.

(** [err == nil] *)
Definition succeeded {E A : Type} (r : E + A) : bool :=
  match r with inl _ => false | inr _ => true end.

(** Where the connection a successful negotiation returns comes from: the
    connector of the session gave it, and the node behind it answered the
    liveness RPC. *)
Definition provenance (env : Env) (mailboxServer pairingPhrase : string)
    (out : ConnectError + ClientConn * lnrpc.GetInfoResponse) : Prop :=
  match out with
  | inl _ => True
  | inr (conn, info) =>
      exists session,
        NewClientWebsocketConn env mailboxServer pairingPhrase = inr session /\
        lndConnect session = Some (inr conn) /\
        lnrpc.GetInfo (NewLightningClient env conn) = inr info
  end.

(** What the callback of a successful connect leaves in the trace. *)
Definition callbackEvents (s : ConnectionService) (conn : ClientConn) : list Event :=
  match ConnectionCallback s with
  | Some _ => [EvCallback conn]
  | None => []
  end.

(** The JSON number an integer argument arrives as. *)
Definition numberArg (z : option Z) : option Value :=
  (fun z => VNumber (Q2Qc (inject_Z z))) <$> z.

(** The limit the list handlers send for the limit they were given. *)
Definition limitSent (limit : option Z) : Z :=
  match limit with
  | Some l => if l =? 0 then 100 else l
  | None => 100
  end.

(** ** Scenarios *)

Definition sampleInfo : lnrpc.GetInfoResponse :=
  {| lnrpc.IdentityPubkey := "02abc"; lnrpc.Alias := "alice"; lnrpc.Version := "0.19.0";
     lnrpc.NumPeers := 3; lnrpc.NumActiveChannels := 2; lnrpc.NumInactiveChannels := 0;
     lnrpc.NumPendingChannels := 0; lnrpc.SyncedToChain := true; lnrpc.SyncedToGraph := true;
     lnrpc.BlockHeight := 800000; lnrpc.BlockHash := "00ff"; lnrpc.Chains := ["mainnet"] |}.

(** A node that answers every query, and the liveness RPC with [getInfo]. *)
Definition sampleClient (getInfo : string + lnrpc.GetInfoResponse) : lnrpc.LightningClient :=
  {| lnrpc.GetInfo := getInfo;
     lnrpc.WalletBalance := inr "wallet";
     lnrpc.ChannelBalance := inr "channel";
     lnrpc.DecodePayReq := fun _ => inr "decoded";
     lnrpc.ListInvoices := fun _ => inr "invoices";
     lnrpc.LookupInvoice := fun _ => inr "invoice";
     lnrpc.ListPayments := fun _ =>
       inr {| lnrpc.Payments := []; lnrpc.paymentsBody := "payments" |};
     lnrpc.ListChannels := fun _ => inr "channels";
     lnrpc.PendingChannels := inr "pending";
     lnrpc.ListPeers := inr "peers";
     lnrpc.DescribeGraph := fun _ => inr "graph";
     lnrpc.GetNodeInfo := fun _ => inr "node";
     lnrpc.ListUnspent := fun _ => inr "utxos";
     lnrpc.GetTransactions := fun _ => inr "txs";
     lnrpc.EstimateFee := fun _ => inr "fee" |}.

Definition sampleFormatter : Formatter :=
  {| fmtGetInfo := fun info _ _ => lnrpc.Alias info;
     fmtBalance := fun a b => a +:+ b;
     fmtDecodedInvoice := fun r => r;
     fmtInvoices := fun r => r;
     fmtInvoice := fun r => r;
     fmtPayments := fun r => lnrpc.paymentsBody r;
     fmtTrackedPayment := fun p => lnrpc.paymentBody p;
     fmtChannels := fun r => r;
     fmtPendingChannels := fun r => r;
     fmtPeers := fun r => r;
     fmtGraph := fun _ r => r;
     fmtNodeInfo := fun _ r => r;
     fmtUnspent := fun r => r;
     fmtTransactions := fun r => r;
     fmtFeeEstimates := fun _ => "fees" |}.

(** A relay that answers after 100 ms with a session whose connector
    gives [connector] after 150 ms; the callbacks fire at [keyAt] and
    [authAt]; the node answers the liveness RPC with [getInfo] after 50 ms. *)
Definition sampleEnv (connector : option (string + ClientConn))
    (getInfo : string + lnrpc.GetInfoResponse) (keyAt authAt_ : option Z) : Env :=
  {| Getenv := fun _ => "";
     NewPrivateKey := None;
     NewClientWebsocketConn := fun _ _ =>
       inr {| lndConnect := connector; lndConnectLatency := 150 |};
     relayLatency := 100;
     remoteKeyAt := keyAt;
     authAt := authAt_;
     NewLightningClient := fun _ => sampleClient getInfo;
     getInfoLatency := 50;
     Close := fun _ => Some "connection is closing";
     formatter := sampleFormatter;
     uint64OutOfRange := fun _ => 0;
     int32OutOfRange := fun _ => 0 |}.

(** The node is reached and answers. *)
Definition reachable : Env := sampleEnv (Some (inr 7%nat)) (inr sampleInfo) (Some 400) (Some 3450).

(** The tunnel comes up, the liveness RPC does not answer. *)
Definition unresponsive : Env :=
  sampleEnv (Some (inr 7%nat)) (inl "rpc error: code = DeadlineExceeded") None None.

(** A context that is never done, and one cancelled at instant [d]. *)
Definition background : Context := {| doneAt := None; doneErr := Canceled |}.
Definition cancelledAt (d : Z) : Context := {| doneAt := Some d; doneErr := Canceled |}.

Definition world0 : World :=
  {| now := 0; TLSClientConfig := None; manager := InitializeServices; trace := [] |}.

Definition tenWords : string := "one two three four five six seven eight nine ten".

(** The phrase of the repository's test case [extra_spaces_handled]. *)
Definition spacedTenWords : string := "one  two   three four five six seven eight nine ten".

(** Ten words separated by single spaces, and an eleventh after a tab. *)
Definition tabbedElevenWords : string :=
  tenWords +:+ String (ascii_of_nat 9) "eleven".

Definition connectArgs (phrase password : string) : gmap string Value :=
  <["pairingPhrase" := VString phrase]> (<["password" := VString password]> ∅).

(** The request context [HandleConnect] makes at instant 0. *)
Definition requestContext (parent : Context) : lnccontext.RequestContext :=
  lnccontext.New (lnccontext.Plain parent) "lnc_connect" 45000 0.

(** A service that already holds connection 1, wired to the manager. *)
Definition holding (env : Env) : ConnectionService :=
  {| Connection := Some 1%nat;
     ConnectionCallback := Some (onLNCConnectionEstablished env) |}.

(** The tunnel comes up and the callbacks never fire; by the time of the
    liveness RPC the context is gone, and the RPC reports that. *)
Definition cancelledLate : Env :=
  sampleEnv (Some (inr 7%nat))
    (inl "rpc error: code = Canceled desc = context canceled") None None.

Definition productionMailbox : string := "mailbox.terminal.lightning.today:443".

Definition sampleSession : RelaySession :=
  {| lndConnect := Some (inr 7%nat); lndConnectLatency := 150 |}.

Definition connectedPayments : PaymentService.t :=
  {| PaymentService.LightningClient := Some (sampleClient (inr sampleInfo)) |}.

Definition connectedInvoices : InvoiceService.t :=
  {| InvoiceService.LightningClient := Some (sampleClient (inr sampleInfo)) |}.

Definition pageArgs (offset limit : Z) : gmap string Value :=
  <["index_offset" := VNumber (Q2Qc (inject_Z offset))]>
    (<["max_payments" := VNumber (Q2Qc (inject_Z limit))]>
       (<["num_max_invoices" := VNumber (Q2Qc (inject_Z limit))]> ∅)).

(** A page request of [lnc_list_payments] and one of [lnc_list_invoices],
    each with the keys of its own tool only. *)
Definition paymentsPage (offset limit : Z) : gmap string Value :=
  <["index_offset" := VNumber (Q2Qc (inject_Z offset))]>
    (<["max_payments" := VNumber (Q2Qc (inject_Z limit))]> ∅).

Definition invoicesPage (offset limit : Z) : gmap string Value :=
  <["index_offset" := VNumber (Q2Qc (inject_Z offset))]>
    (<["num_max_invoices" := VNumber (Q2Qc (inject_Z limit))]> ∅).

(** ** The rest of the tools package and its callers *)

(** [isValidBolt11] *)
Definition isValidBolt11 (invoice : string) : bool :=
  (2 <? String.length invoice)%nat && String.eqb (substring 0 2 invoice) "ln".

(** How many bytes of a string are the byte [c]. *)
Fixpoint countByte (c : ascii) (s : string) : nat :=
  match s with
  | EmptyString => 0%nat
  | String b rest => ((if Ascii.eqb b c then 1 else 0) + countByte c rest)%nat
  end.

Module mcp.

(** An [mcp.Tool], as far as the handlers have to agree with it: its name,
    the properties its input schema declares and the ones it requires. *)
Record Tool := {
  Name : string;
  Properties : list string;
  Required : list string
}.

End mcp.

Definition ConnectTool : mcp.Tool :=
  {| mcp.Name := "lnc_connect";
     mcp.Properties := ["pairingPhrase"; "password"; "mailbox"; "devMode"; "insecure"];
     mcp.Required := ["pairingPhrase"; "password"] |}.

Definition DisconnectTool : mcp.Tool :=
  {| mcp.Name := "lnc_disconnect"; mcp.Properties := []; mcp.Required := [] |}.

Definition DecodeInvoiceTool : mcp.Tool :=
  {| mcp.Name := "lnc_decode_invoice";
     mcp.Properties := ["invoice"]; mcp.Required := ["invoice"] |}.

Definition ListInvoicesTool : mcp.Tool :=
  {| mcp.Name := "lnc_list_invoices";
     mcp.Properties := ["pending_only"; "index_offset"; "num_max_invoices"; "reversed"];
     mcp.Required := [] |}.

Definition LookupInvoiceTool : mcp.Tool :=
  {| mcp.Name := "lnc_lookup_invoice";
     mcp.Properties := ["payment_hash"]; mcp.Required := ["payment_hash"] |}.

Definition ListChannelsTool : mcp.Tool :=
  {| mcp.Name := "lnc_list_channels";
     mcp.Properties := ["active_only"; "inactive_only"; "public_only"; "private_only"];
     mcp.Required := [] |}.

Definition PendingChannelsTool : mcp.Tool :=
  {| mcp.Name := "lnc_pending_channels"; mcp.Properties := []; mcp.Required := [] |}.

Definition ListPaymentsTool : mcp.Tool :=
  {| mcp.Name := "lnc_list_payments";
     mcp.Properties := ["include_incomplete"; "index_offset"; "max_payments"; "reversed"];
     mcp.Required := [] |}.

Definition TrackPaymentTool : mcp.Tool :=
  {| mcp.Name := "lnc_track_payment";
     mcp.Properties := ["payment_hash"]; mcp.Required := ["payment_hash"] |}.

Definition ListUnspentTool : mcp.Tool :=
  {| mcp.Name := "lnc_list_unspent";
     mcp.Properties := ["min_confs"; "max_confs"; "account"]; mcp.Required := [] |}.

Definition GetTransactionsTool : mcp.Tool :=
  {| mcp.Name := "lnc_get_transactions";
     mcp.Properties := ["start_height"; "end_height"; "account"]; mcp.Required := [] |}.

Definition EstimateFeesTool : mcp.Tool :=
  {| mcp.Name := "lnc_estimate_fee";
     mcp.Properties := ["target_conf"]; mcp.Required := [] |}.

Definition ListPeersTool : mcp.Tool :=
  {| mcp.Name := "lnc_list_peers"; mcp.Properties := []; mcp.Required := [] |}.

Definition DescribeGraphTool : mcp.Tool :=
  {| mcp.Name := "lnc_describe_graph";
     mcp.Properties := ["include_unannounced"]; mcp.Required := [] |}.

Definition GetNodeInfoTool : mcp.Tool :=
  {| mcp.Name := "lnc_get_node_info";
     mcp.Properties := ["pub_key"; "include_channels"]; mcp.Required := ["pub_key"] |}.

Definition GetBalanceTool : mcp.Tool :=
  {| mcp.Name := "lnc_get_balance"; mcp.Properties := []; mcp.Required := [] |}.

Definition GetInfoTool : mcp.Tool :=
  {| mcp.Name := "lnc_get_info"; mcp.Properties := []; mcp.Required := [] |}.

(** The declaration [Manager.RegisterTools] registers a query handler
    with. *)
Definition toolOf (tool : QueryTool) : mcp.Tool :=
  match tool with
  | lnc_decode_invoice => DecodeInvoiceTool
  | lnc_list_invoices => ListInvoicesTool
  | lnc_lookup_invoice => LookupInvoiceTool
  | lnc_list_channels => ListChannelsTool
  | lnc_pending_channels => PendingChannelsTool
  | lnc_list_payments => ListPaymentsTool
  | lnc_track_payment => TrackPaymentTool
  | lnc_list_unspent => ListUnspentTool
  | lnc_get_transactions => GetTransactionsTool
  | lnc_estimate_fee => EstimateFeesTool
  | lnc_list_peers => ListPeersTool
  | lnc_describe_graph => DescribeGraphTool
  | lnc_get_node_info => GetNodeInfoTool
  | lnc_get_balance => GetBalanceTool
  | lnc_get_info => GetInfoTool
  end.

Module errors.

(** [ErrorCode], a [uint32]. *)
Definition ErrorCode := N.

Definition ErrCodeUnknown : ErrorCode := 0%N.
Definition ErrCodeConnectionFailed : ErrorCode := 1%N.
Definition ErrCodeInvalidPairingPhrase : ErrorCode := 2%N.
Definition ErrCodeTimeout : ErrorCode := 3%N.
Definition ErrCodeNotConnected : ErrorCode := 4%N.
Definition ErrCodeInvalidInvoice : ErrorCode := 5%N.
Definition ErrCodeInsufficientBalance : ErrorCode := 6%N.
Definition ErrCodeInvalidAddress : ErrorCode := 7%N.
Definition ErrCodeServerShutdown : ErrorCode := 8%N.

(** [ErrorCode.String] *)
Definition String_ (e : ErrorCode) : string :=
  match e with
  | 0%N => "Unknown"
  | 1%N => "ConnectionFailed"
  | 2%N => "InvalidPairingPhrase"
  | 3%N => "Timeout"
  | 4%N => "NotConnected"
  | 5%N => "InvalidInvoice"
  | 6%N => "InsufficientBalance"
  | 7%N => "InvalidAddress"
  | 8%N => "ServerShutdown"
  | _ => "Unknown(" +:+ pretty e +:+ ")"
  end.

(** A Go [error]: the package's own [Error], or an error of another type,
    known by its text. *)
Inductive error :=
| Foreign (text : string)
| Structured (e : Error)
with Error :=
| MkError (Code : ErrorCode) (Message : string) (Cause : option error).

Definition Code (e : Error) : ErrorCode := match e with MkError c _ _ => c end.
Definition Message (e : Error) : string := match e with MkError _ m _ => m end.
Definition Cause (e : Error) : option error := match e with MkError _ _ c => c end.

(** The [Error] method of [Error], and of any error. *)
Fixpoint Error_ (e : Error) : string :=
  match e with
  | MkError code message cause =>
      match cause with
      | Some c =>
          "[" +:+ String_ code +:+ "] " +:+ message +:+ ": " +:+
          match c with
          | Foreign text => text
          | Structured e' => Error_ e'
          end
      | None => "[" +:+ String_ code +:+ "] " +:+ message
      end
  end.

Definition errorText (err : error) : string :=
  match err with
  | Foreign text => text
  | Structured e => Error_ e
  end.

(** [Unwrap], [New], [Wrap] *)
Definition Unwrap (e : Error) : option error := Cause e.

Definition New (code : ErrorCode) (message : string) : Error :=
  MkError code message None.

Definition Wrap (cause : option error) (code : ErrorCode) (message : string) : Error :=
  MkError code message cause.

(** [As]: the error itself when it is an [Error]; the chain of causes is
    not searched. *)
Definition As (err : option error) : option Error :=
  match err with
  | Some (Structured e) => Some e
  | _ => None
  end.

(** [Is] *)
Definition Is (err : option error) (code : ErrorCode) : bool :=
  match As err with
  | Some e => (Code e =? code)%N
  | None => false
  end.

Definition ErrConnectionFailed (cause : option error) (details : string) : Error :=
  Wrap cause ErrCodeConnectionFailed
    ("failed to establish Lightning Network connection: " +:+ details).

Definition ErrInvalidPairingPhrase (reason : string) : Error :=
  New ErrCodeInvalidPairingPhrase ("invalid pairing phrase: " +:+ reason).

Definition ErrTimeout (operation : string) : Error :=
  New ErrCodeTimeout ("operation timed out: " +:+ operation).

Definition ErrNotConnected : Error :=
  New ErrCodeNotConnected "not connected to Lightning node. Use lnc_connect first".

Definition ErrInvalidInvoice (reason : string) : Error :=
  New ErrCodeInvalidInvoice ("invalid invoice format: " +:+ reason).

Definition ErrInvalidAddress (addr : string) : Error :=
  New ErrCodeInvalidAddress ("invalid address format: " +:+ addr).

End errors.

(** The handler a tool is registered with. *)
Inductive Handler :=
| ConnectHandler
| DisconnectHandler
| QueryHandler (tool : QueryTool).

(** The MCP server, as [Manager.RegisterTools] sees it: the tools added so
    far, oldest first. *)
Definition MCPServer : Type := list (mcp.Tool * Handler).

Definition AddTool (tool : mcp.Tool) (handler : Handler) (server : MCPServer) : MCPServer :=
  server ++ [(tool, handler)].

(** [Manager.RegisterTools]: the error, if any, and the server after the
    call. *)
Definition RegisterTools (mcpServer : option MCPServer) : option errors.Error * option MCPServer :=
  match mcpServer with
  | None => (Some (errors.New errors.ErrCodeUnknown "MCP server cannot be nil"), None)
  | Some server =>
      let register tool handler server := AddTool tool handler server in
      let server := register ConnectTool ConnectHandler server in
      let server := register DisconnectTool DisconnectHandler server in
      let server := register DecodeInvoiceTool (QueryHandler lnc_decode_invoice) server in
      let server := register ListInvoicesTool (QueryHandler lnc_list_invoices) server in
      let server := register LookupInvoiceTool (QueryHandler lnc_lookup_invoice) server in
      let server := register ListChannelsTool (QueryHandler lnc_list_channels) server in
      let server := register PendingChannelsTool (QueryHandler lnc_pending_channels) server in
      let server := register ListPaymentsTool (QueryHandler lnc_list_payments) server in
      let server := register TrackPaymentTool (QueryHandler lnc_track_payment) server in
      let server := register ListUnspentTool (QueryHandler lnc_list_unspent) server in
      let server := register GetTransactionsTool (QueryHandler lnc_get_transactions) server in
      let server := register EstimateFeesTool (QueryHandler lnc_estimate_fee) server in
      let server := register ListPeersTool (QueryHandler lnc_list_peers) server in
      let server := register DescribeGraphTool (QueryHandler lnc_describe_graph) server in
      let server := register GetNodeInfoTool (QueryHandler lnc_get_node_info) server in
      let server := register GetBalanceTool (QueryHandler lnc_get_balance) server in
      let server := register GetInfoTool (QueryHandler lnc_get_info) server in
      (None, Some server)
  end.

(** [Manager.Shutdown]: the connection the manager holds is closed and
    kept; an error of [Close] comes back wrapped. *)
Definition Shutdown (env : Env) (w : World) : option errors.Error * World :=
  match lncConnection (manager w) with
  | Some conn =>
      let w := emit (EvClose conn) w in
      match Close env conn with
      | Some err =>
          (Some (errors.Wrap (Some (errors.Foreign err)) errors.ErrCodeUnknown
                   "failed to close LNC connection"), w)
      | None => (None, w)
      end
  | None => (None, w)
  end.

(** How often a connection was closed in a trace. *)
Definition closings (conn : ClientConn) (evs : list Event) : nat :=
  length (List.filter (fun e => match e with
                           | EvClose c => Nat.eqb c conn
                           | _ => false
                           end) evs).

(** The service the manager makes in [InitializeServices]. *)
Definition managedService (env : Env) : ConnectionService :=
  NewConnectionService (Some (onLNCConnectionEstablished env)).

(** Where a negotiation stops, by the events it leaves after the polls. *)
Definition stopsWith (out : ConnectError + ClientConn * lnrpc.GetInfoResponse)
    (tail : list Event) : Prop :=
  match out with
  | inl (ErrPrivateKey _) => False
  | inl (ErrMailbox _) | inl (ErrCancelled _) | inl ErrNoConnector => tail = []
  | inl (ErrLndConnect _) => tail = [EvStatusCheck; EvLndConnect]
  | inl (ErrGetInfo _) =>
      exists conn, tail = [EvStatusCheck; EvLndConnect; EvGetInfo conn; EvClose conn]
  | inr (conn, _) => tail = [EvStatusCheck; EvLndConnect; EvGetInfo conn]
  end.

(** The target [HandleEstimateFee] asks for, given the caller's. *)
Definition targetAsked (target : option Z) : Z :=
  match target with
  | Some t => if t =? 0 then 6 else t
  | None => 6
  end.

(** What [HandleConnect] makes of the outcome of the negotiation. *)
Definition concluded (env : Env) (s : ConnectionService) (args : gmap string Value)
    (out : ConnectError + ClientConn * lnrpc.GetInfoResponse) (w1 : World)
    : CallToolResult * ConnectionService * World :=
  match out with
  | inl err =>
      (NewToolResultError ("Failed to connect to Lightning node: " +:+ errorString err), s, w1)
  | inr (conn, nodeInfo) =>
      (NewToolResultText (connectedText nodeInfo (mailboxServerOf env args)),
       {| Connection := Some conn; ConnectionCallback := ConnectionCallback s |},
       match ConnectionCallback s with
       | Some callback => emit (EvCallback conn) (setManager (callback conn (manager w1)) w1)
       | None => w1
       end)
  end.

(** How long the connector of the session takes that the relay gives for
    an address and a phrase. *)
Definition connectorLatency (env : Env) (mailboxServer pairingPhrase : string) : Z :=
  match NewClientWebsocketConn env mailboxServer pairingPhrase with
  | inr session => Z.of_N (lndConnectLatency session)
  | inl _ => 0
  end.

(** The RPCs [HandleEstimateFee] issues for the caller's target. *)
Definition feeCalls (target : option Z) : list lnrpc.Call :=
  let t := targetAsked target in
  if t <? 0 then map lnrpc.CallEstimateFee feeTargets
  else if existsb (Z.eqb t) feeTargets then [lnrpc.CallEstimateFee t]
  else [].

(** The bound an on-chain handler sends for the bound it was given. *)
Definition boundSent (default_ : Z) (bound : option Z) : Z :=
  match bound with
  | Some b => if b =? 0 then default_ else b
  | None => default_
  end.

(** A manager whose services were connected over [conn]. *)
Definition connectedManager (env : Env) (conn : ClientConn) : Manager :=
  onLNCConnectionEstablished env conn InitializeServices.

(** The request [HandleTrackPayment] sends, whatever hash it looks for. *)
Definition historyRequest : lnrpc.ListPaymentsRequest :=
  {| lnrpc.IncludeIncomplete := true; lnrpc.IndexOffset := 0;
     lnrpc.MaxPayments := 0; lnrpc.Reversed := false |}.

(** The answer of [HandleTrackPayment] when no payment has the hash. *)
Definition paymentNotFound : string :=
  "{" +:+ quoted "found" +:+ ": false, " +:+ quoted "message" +:+ ": " +:+
  quoted "Payment not found" +:+ "}".

Definition sampleHash : string :=
  "00112233445566778899aabbccddeeff00112233445566778899AABBCCDDEEFF".

(** A payment service whose node lists three payments, two of them with
    [sampleHash]. *)
Definition payingService : PaymentService.t :=
  let client := sampleClient (inr sampleInfo) in
  {| PaymentService.LightningClient := Some
       {| lnrpc.GetInfo := lnrpc.GetInfo client;
          lnrpc.WalletBalance := lnrpc.WalletBalance client;
          lnrpc.ChannelBalance := lnrpc.ChannelBalance client;
          lnrpc.DecodePayReq := lnrpc.DecodePayReq client;
          lnrpc.ListInvoices := lnrpc.ListInvoices client;
          lnrpc.LookupInvoice := lnrpc.LookupInvoice client;
          lnrpc.ListPayments := fun _ =>
            inr {| lnrpc.Payments :=
                     [ {| lnrpc.PaymentHash := "ab"; lnrpc.paymentBody := "first" |};
                       {| lnrpc.PaymentHash := sampleHash; lnrpc.paymentBody := "second" |};
                       {| lnrpc.PaymentHash := sampleHash; lnrpc.paymentBody := "third" |} ];
                   lnrpc.paymentsBody := "payments" |};
          lnrpc.ListChannels := lnrpc.ListChannels client;
          lnrpc.PendingChannels := lnrpc.PendingChannels client;
          lnrpc.ListPeers := lnrpc.ListPeers client;
          lnrpc.DescribeGraph := lnrpc.DescribeGraph client;
          lnrpc.GetNodeInfo := lnrpc.GetNodeInfo client;
          lnrpc.ListUnspent := lnrpc.ListUnspent client;
          lnrpc.GetTransactions := lnrpc.GetTransactions client;
          lnrpc.EstimateFee := lnrpc.EstimateFee client |} |}.

(** The arguments [HandleConnect] reads agree in two requests. *)
Definition sameConnectArguments (args args' : gmap string Value) : Prop :=
  forall k, In k (mcp.Properties ConnectTool) -> args !! k = args' !! k.

Definition connectedChain : OnChainService.t :=
  {| OnChainService.LightningClient := Some (sampleClient (inr sampleInfo)) |}.

(** A request of [lnc_list_unspent] and one of [lnc_get_transactions],
    each with the bounds of its own tool only. *)
Definition unspentArgs (lower upper : Z) : gmap string Value :=
  <["min_confs" := VNumber (Q2Qc (inject_Z lower))]>
    (<["max_confs" := VNumber (Q2Qc (inject_Z upper))]> ∅).

Definition transactionArgs (lower upper : Z) : gmap string Value :=
  <["start_height" := VNumber (Q2Qc (inject_Z lower))]>
    (<["end_height" := VNumber (Q2Qc (inject_Z upper))]> ∅).

(** * Properties *)

(** ** The poll loop *)
Lemma ctxDone_mono c t t' : t <= t' -> ctxDone c t' = false -> ctxDone c t = false.
Proof.
  unfold ctxDone. destruct (doneAt c) as [d|]; [|reflexivity].
  intros Hle Hd. apply Z.leb_gt in Hd. apply Z.leb_gt. lia.
Qed.

Lemma pollFuel_eq : pollFuel = 26%nat.
Proof. reflexivity. Qed.

(** The fuel is enough as soon as it covers the time left. *)
Lemma pollLoop_total env rc ws fuel w :
  (0 < fuel)%nat ->
  maxWaitTime - (now w - ws) <= pollInterval * (Z.of_nat fuel - 1) ->
  is_Some (pollLoop env rc ws fuel w).
Proof.
  revert w. induction fuel as [|fuel IH]; intros w Hpos Hfuel; [lia|].
  simpl. destruct (now w - ws <? maxWaitTime) eqn:E; [|eauto].
  destruct (lnccontext.Done rc (now w)); [eauto|].
  destruct (authReceived env (now w) && remotePubSet env (now w)); [eauto|].
  apply Z.ltb_lt in E.
  apply IH; simpl; unfold maxWaitTime, pollInterval in *; lia.
Qed.

(** The loop touches nothing but the clock and the trace, where it leaves
    polls only. *)
Lemma pollLoop_frame env rc ws fuel w r w' :
  pollLoop env rc ws fuel w = Some (r, w') ->
  TLSClientConfig w' = TLSClientConfig w /\ manager w' = manager w /\
  now w <= now w' /\
  exists polls, trace w' = trace w ++ polls /\ Forall isPoll polls.
Proof.
  revert w. induction fuel as [|fuel IH]; intros w; simpl; [discriminate|].
  destruct (now w - ws <? maxWaitTime).
  - destruct (lnccontext.Done rc (now w)).
    + intros [= <- <-]. repeat split; try lia. exists []. rewrite app_nil_r. auto.
    + destruct (authReceived env (now w) && remotePubSet env (now w)).
      * intros [= <- <-]. simpl. repeat split; try lia.
        eexists [_]. split; [reflexivity|]. repeat constructor.
      * intros H. apply IH in H. simpl in H.
        destruct H as (Htls & Hm & Hnow & polls & Htr & Hp).
        repeat split; auto; [unfold pollInterval in *; lia|].
        eexists (_ :: polls). rewrite Htr, <- app_assoc. split; [reflexivity|].
        constructor; [exact I | assumption].
  - intros [= <- <-]. repeat split; try lia. exists []. rewrite app_nil_r. auto.
Qed.

(** Without cancellation the loop polls every [pollInterval] from
    [waitStart] on, stops at the first poll that sees both flags, and
    otherwise when [maxWaitTime] has passed. *)
Lemma pollLoop_completes env rc ws fuel j w :
  now w = ws + pollInterval * Z.of_nat j ->
  (j <= 25)%nat -> (26 <= fuel + j)%nat ->
  lnccontext.Done rc (ws + (maxWaitTime - pollInterval)) = false ->
  exists n w',
    pollLoop env rc ws fuel w = Some (None, w') /\
    (j + n <= 25)%nat /\
    trace w' = trace w ++ map (pollAt env ws) (seq j n) /\
    (forall k, (j <= k)%nat -> (S k < j + n)%nat ->
               bothFired env (ws + pollInterval * Z.of_nat k) = false) /\
    ((j + n < 25)%nat ->
       (0 < n)%nat /\ bothFired env (ws + pollInterval * Z.of_nat (j + n - 1)) = true) /\
    ((j < 25)%nat -> (0 < n)%nat) /\
    now w' <= ws + maxWaitTime.
Proof.
  revert j w. induction fuel as [|fuel IH]; intros j w Hnow Hj Hfuel Hctx; [lia|].
  simpl. rewrite Hnow.
  replace (ws + pollInterval * Z.of_nat j - ws) with (pollInterval * Z.of_nat j) by lia.
  destruct (pollInterval * Z.of_nat j <? maxWaitTime) eqn:E.
  - apply Z.ltb_lt in E. unfold pollInterval, maxWaitTime in E.
    assert (Hj' : (j < 25)%nat) by lia.
    unfold lnccontext.Done in *.
    assert (Hnd : ctxDone (lnccontext.Ctx rc) (ws + pollInterval * Z.of_nat j) = false).
    { eapply ctxDone_mono; [|exact Hctx]. unfold pollInterval, maxWaitTime. lia. }
    rewrite Hnd.
    fold (bothFired env (ws + pollInterval * Z.of_nat j)).
    destruct (bothFired env (ws + pollInterval * Z.of_nat j)) eqn:B.
    + exists 1%nat. eexists. split; [reflexivity|]. simpl.
      unfold pollAt. repeat split; try lia.
      * replace (j + 1 - 1)%nat with j by lia. exact B.
      * rewrite Hnow. unfold pollInterval, maxWaitTime. lia.
    + match goal with
      | |- context [pollLoop _ _ _ _ ?w2] =>
          destruct (IH (S j) w2) as (n & w' & Hrun & Hn & Htr & Hno & Hearly & _ & Hend);
            [| | | exact Hctx |]
      end.
      * cbn [now Sleep setNow emit]. rewrite Hnow. unfold pollInterval. lia.
      * lia.
      * lia.
      * exists (S n), w'. split; [exact Hrun|]. repeat split; try lia.
        -- rewrite Htr. simpl. rewrite <- app_assoc. reflexivity.
        -- intros k Hk1 Hk2. destruct (Nat.eq_dec k j) as [->|Hne]; [exact B|].
           apply Hno; lia.
        -- replace (j + S n - 1)%nat with (S j + n - 1)%nat by lia.
           apply Hearly. lia.
  - apply Z.ltb_ge in E. unfold pollInterval, maxWaitTime in E.
    exists 0%nat, w. split; [reflexivity|]. simpl. rewrite app_nil_r.
    repeat split; try lia. rewrite Hnow. unfold pollInterval, maxWaitTime. lia.
Qed.

(** A context found done at a poll check ends the loop there, at most one
    [pollInterval] after it was done. *)
Lemma pollLoop_cancelled env rc ws d fuel j w :
  now w = ws + pollInterval * Z.of_nat j ->
  (26 <= fuel + j)%nat ->
  doneAt (lnccontext.Ctx rc) = Some d ->
  d <= ws + (maxWaitTime - pollInterval) ->
  now w < d + pollInterval ->
  (forall k : nat, ws + pollInterval * Z.of_nat k < d ->
                   bothFired env (ws + pollInterval * Z.of_nat k) = false) ->
  exists w' polls,
    pollLoop env rc ws fuel w = Some (Some (lnccontext.Err rc), w') /\
    trace w' = trace w ++ polls /\ Forall isPoll polls /\
    d <= now w' < d + pollInterval.
Proof.
  revert j w. induction fuel as [|fuel IH]; intros j w Hnow Hfuel Hd Hlast Hprompt Hflags.
  - unfold pollInterval, maxWaitTime in *. lia.
  - simpl. rewrite Hnow.
    replace (ws + pollInterval * Z.of_nat j - ws) with (pollInterval * Z.of_nat j) by lia.
    destruct (pollInterval * Z.of_nat j <? maxWaitTime) eqn:E;
      [| apply Z.ltb_ge in E; unfold pollInterval, maxWaitTime in *; lia].
    unfold lnccontext.Done, ctxDone. rewrite Hd.
    destruct (d <=? ws + pollInterval * Z.of_nat j) eqn:C.
    + apply Z.leb_le in C. exists w, []. rewrite app_nil_r. repeat split; auto; lia.
    + apply Z.leb_gt in C.
      fold (bothFired env (ws + pollInterval * Z.of_nat j)). rewrite (Hflags j C).
      match goal with
      | |- context [pollLoop _ _ _ _ ?w2] =>
          destruct (IH (S j) w2) as (w' & polls & Hrun & Htr & Hp & Hwhen);
            [| | exact Hd | exact Hlast | | exact Hflags |]
      end.
      * cbn [now Sleep setNow emit]. rewrite Hnow. unfold pollInterval. lia.
      * lia.
      * cbn [now Sleep setNow emit]. rewrite Hnow. unfold pollInterval in *. lia.
      * exists w'. eexists. split; [exact Hrun|]. simpl in Htr.
        rewrite Htr, <- app_assoc. split; [reflexivity|]. split; [|exact Hwhen].
        constructor; [exact I | exact Hp].
Qed.

(** ** The negotiation *)

Lemma configureTLS_frame mb dev ins w :
  now (configureTLS mb dev ins w) = now w /\
  manager (configureTLS mb dev ins w) = manager w /\
  trace (configureTLS mb dev ins w) = trace w ++ tlsEvents mb dev ins /\
  TLSClientConfig (configureTLS mb dev ins w) =
    if insecureTransport mb dev ins then Some {| InsecureSkipVerify := true |}
    else TLSClientConfig w.
Proof.
  unfold configureTLS, tlsEvents. destruct (insecureTransport mb dev ins); simpl;
    rewrite ?app_nil_r; auto.
Qed.

Ltac world_simpl :=
  cbn [now trace manager TLSClientConfig emit Sleep setNow setManager setTLSClientConfig] in *.

Ltac trace_norm :=
  world_simpl;
  repeat match goal with
    | |- context [trace (configureTLS ?mb ?dev ?ins ?w)] =>
        rewrite (proj1 (proj2 (proj2 (configureTLS_frame mb dev ins w))))
    end;
  rewrite <- ?app_assoc; cbn [app].

Lemma polls_quiet closes polls : Forall isPoll polls -> Forall (quiet closes) polls.
Proof.
  intros Hp. eapply Forall_impl; [exact Hp|].
  intros [] H; simpl in *; auto; contradiction.
Qed.

(** Every run of the negotiation ends; a failed key generation leaves the
    world untouched; any other run configures TLS, opens the relay session
    and from then on only polls, checks the status, calls the connector and
    the liveness RPC, and closes a connection only on a path that fails. *)
Lemma connectToLNC_frame env ctx pairingPhrase password mailboxServer devMode insecure w :
  exists out w',
    connectToLNC env ctx pairingPhrase password mailboxServer devMode insecure w
      = Some (out, w') /\
    manager w' = manager w /\
    provenance env mailboxServer pairingPhrase out /\
    match NewPrivateKey env with
    | Some e => out = inl (ErrPrivateKey e) /\ w' = w
    | None =>
        exists post,
          trace w' = trace w ++ tlsEvents mailboxServer devMode insecure ++
                     EvRelayOpen mailboxServer pairingPhrase :: post /\
          Forall (quiet (negb (succeeded out))) post /\
          TLSClientConfig w' =
            (if insecureTransport mailboxServer devMode insecure
             then Some {| InsecureSkipVerify := true |} else TLSClientConfig w)
    end.
Proof.
  unfold connectToLNC.
  destruct (NewPrivateKey env) as [e|];
    [exists (inl (ErrPrivateKey e)), w; simpl; auto|].
  destruct (configureTLS_frame mailboxServer devMode insecure w) as (Hnow & Hm & Htr & Htls).
  set (rc := lnccontext.Ensure ctx _ _).
  set (w1 := Sleep _ (emit _ (configureTLS mailboxServer devMode insecure w))).
  assert (Hshape : forall post w',
    trace w' = trace w1 ++ post ->
    trace w' = trace w ++ tlsEvents mailboxServer devMode insecure ++
               EvRelayOpen mailboxServer pairingPhrase :: post).
  { intros post w' ->. subst w1. trace_norm. reflexivity. }
  assert (Hm1 : manager w1 = manager w) by (subst w1; world_simpl; exact Hm).
  assert (Htls1 : TLSClientConfig w1 =
            (if insecureTransport mailboxServer devMode insecure
             then Some {| InsecureSkipVerify := true |} else TLSClientConfig w))
    by (subst w1; world_simpl; exact Htls).
  clearbody w1.
  assert (Hstop : forall (out : ConnectError + ClientConn * lnrpc.GetInfoResponse) w' post,
    manager w' = manager w1 -> TLSClientConfig w' = TLSClientConfig w1 ->
    trace w' = trace w1 ++ post -> Forall (quiet (negb (succeeded out))) post ->
    provenance env mailboxServer pairingPhrase out ->
    exists out0 w0,
      Some (out, w') = Some (out0, w0) /\ manager w0 = manager w /\
      provenance env mailboxServer pairingPhrase out0 /\
      exists post0,
        trace w0 = trace w ++ tlsEvents mailboxServer devMode insecure ++
                   EvRelayOpen mailboxServer pairingPhrase :: post0 /\
        Forall (quiet (negb (succeeded out0))) post0 /\
        TLSClientConfig w0 =
          (if insecureTransport mailboxServer devMode insecure
           then Some {| InsecureSkipVerify := true |} else TLSClientConfig w)).
  { intros out w' post Hm' Htls' Htr' Hq Hprov. exists out, w'.
    split; [reflexivity|]. split; [congruence|]. split; [exact Hprov|]. exists post.
    split; [apply Hshape; exact Htr'|]. split; [exact Hq | congruence]. }
  clear Hshape.
  destruct (NewClientWebsocketConn env mailboxServer pairingPhrase) as [e|session] eqn:Hrelay.
  { apply (Hstop _ _ []); simpl; auto using app_nil_r. }
  unfold graceWait.
  assert (Hgo : forall w2, manager w2 = manager w1 ->
    TLSClientConfig w2 = TLSClientConfig w1 -> trace w2 = trace w1 ->
    exists out0 w0,
      match lndConnect session with
      | Some connector =>
          match pollLoop env rc (now w2) pollFuel w2 with
          | Some (Some e, w) => Some (inl (ErrCancelled e), w)
          | Some (None, w) =>
              let w := emit EvStatusCheck w in
              let w := Sleep (Z.of_N (lndConnectLatency session)) (emit EvLndConnect w) in
              match connector with
              | inl e => Some (inl (ErrLndConnect e), w)
              | inr conn =>
                  let w := Sleep (Z.of_N (getInfoLatency env)) (emit (EvGetInfo conn) w) in
                  match lnrpc.GetInfo (NewLightningClient env conn) with
                  | inl e => Some (inl (ErrGetInfo e), emit (EvClose conn) w)
                  | inr info => Some (inr (conn, info), w)
                  end
              end
          | None => None
          end
      | None => Some (inl ErrNoConnector, w2)
      end = Some (out0, w0) /\ manager w0 = manager w /\
      provenance env mailboxServer pairingPhrase out0 /\
      exists post0,
        trace w0 = trace w ++ tlsEvents mailboxServer devMode insecure ++
                   EvRelayOpen mailboxServer pairingPhrase :: post0 /\
        Forall (quiet (negb (succeeded out0))) post0 /\
        TLSClientConfig w0 =
          (if insecureTransport mailboxServer devMode insecure
           then Some {| InsecureSkipVerify := true |} else TLSClientConfig w)).
  { intros w2 Hm2 Htls2 Htr2.
    destruct (lndConnect session) as [connector|] eqn:Hconn;
      [| apply (Hstop _ _ []); simpl; auto; rewrite app_nil_r; exact Htr2].
    destruct (pollLoop_total env rc (now w2) pollFuel w2) as [[r w3] Hrun];
      [rewrite pollFuel_eq; lia
      | rewrite pollFuel_eq; unfold maxWaitTime, pollInterval; lia |].
    rewrite Hrun. apply pollLoop_frame in Hrun.
    destruct Hrun as (Htls3 & Hm3 & _ & polls & Htr3 & Hpolls).
    destruct r as [e|].
    { apply (Hstop _ _ polls); simpl; try congruence; auto.
      apply polls_quiet. exact Hpolls. }
    cbv zeta.
    destruct connector as [e|conn].
    { apply (Hstop _ _ (polls ++ [EvStatusCheck; EvLndConnect])); world_simpl;
        simpl provenance; try congruence; auto.
      - rewrite Htr3, Htr2, <- !app_assoc. reflexivity.
      - apply Forall_app. split; [apply polls_quiet; exact Hpolls | repeat constructor]. }
    destruct (lnrpc.GetInfo (NewLightningClient env conn)) as [e|info] eqn:Hinfo.
    - apply (Hstop _ _ (polls ++ [EvStatusCheck; EvLndConnect; EvGetInfo conn; EvClose conn]));
        world_simpl; simpl provenance; try congruence; auto.
      + rewrite Htr3, Htr2, <- !app_assoc. reflexivity.
      + apply Forall_app. split; [apply polls_quiet; exact Hpolls | repeat constructor].
    - apply (Hstop _ _ (polls ++ [EvStatusCheck; EvLndConnect; EvGetInfo conn]));
        world_simpl; simpl provenance; try congruence; eauto.
      + rewrite Htr3, Htr2, <- !app_assoc. reflexivity.
      + apply Forall_app. split; [apply polls_quiet; exact Hpolls | repeat constructor]. }
  destruct (doneAt (lnccontext.Ctx rc)) as [d|];
    [destruct (d <? now w1 + gracePeriod)|].
  - apply (Hstop _ _ []); simpl; auto using app_nil_r.
  - apply Hgo; reflexivity.
  - apply Hgo; reflexivity.
Qed.

(** With the connector at hand and a context that is not done by the last
    possible poll, the negotiation gets to the connector call: what is left
    to run is written out, on the world [w2] the loop ends in. *)
Lemma connectToLNC_polled env rc pairingPhrase password mailboxServer devMode insecure
    w session connector :
  NewPrivateKey env = None ->
  NewClientWebsocketConn env mailboxServer pairingPhrase = inr session ->
  lndConnect session = Some connector ->
  let waitStart := now w + Z.of_N (relayLatency env) + gracePeriod in
  lnccontext.Done rc (waitStart + (maxWaitTime - pollInterval)) = false ->
  exists n w2,
    connectToLNC env (lnccontext.Request rc) pairingPhrase password mailboxServer
      devMode insecure w =
      (let w3 := Sleep (Z.of_N (lndConnectLatency session))
                   (emit EvLndConnect (emit EvStatusCheck w2)) in
       match connector with
       | inl e => Some (inl (ErrLndConnect e), w3)
       | inr conn =>
           let w4 := Sleep (Z.of_N (getInfoLatency env)) (emit (EvGetInfo conn) w3) in
           match lnrpc.GetInfo (NewLightningClient env conn) with
           | inl e => Some (inl (ErrGetInfo e), emit (EvClose conn) w4)
           | inr info => Some (inr (conn, info), w4)
           end
       end) /\
    (1 <= n <= 25)%nat /\
    trace w2 = trace w ++ (tlsEvents mailboxServer devMode insecure ++
                           [EvRelayOpen mailboxServer pairingPhrase]) ++
               map (pollAt env waitStart) (seq 0 n) /\
    manager w2 = manager w /\
    now w2 <= waitStart + maxWaitTime /\
    (forall k, (S k < n)%nat ->
               bothFired env (waitStart + pollInterval * Z.of_nat k) = false) /\
    ((n < 25)%nat ->
       bothFired env (waitStart + pollInterval * Z.of_nat (n - 1)) = true).
Proof.
  intros Hkey Hrelay Hconn waitStart Hctx.
  unfold connectToLNC. rewrite Hkey, Hrelay. cbn [lnccontext.Ensure].
  destruct (configureTLS_frame mailboxServer devMode insecure w) as (Hnow & Hm & _ & _).
  set (w1 := Sleep _ (emit _ (configureTLS mailboxServer devMode insecure w))).
  assert (Hnow1 : now w1 = now w + Z.of_N (relayLatency env))
    by (subst w1; world_simpl; lia).
  assert (Hgrace : graceWait rc w1 = (None, Sleep gracePeriod w1)).
  { unfold graceWait. unfold lnccontext.Done, ctxDone in Hctx.
    destruct (doneAt (lnccontext.Ctx rc)) as [d|]; [|reflexivity].
    apply Z.leb_gt in Hctx.
    destruct (d <? now w1 + gracePeriod) eqn:E; [|reflexivity].
    apply Z.ltb_lt in E. subst waitStart.
    unfold maxWaitTime, pollInterval, gracePeriod in *. lia. }
  rewrite Hgrace, Hconn.
  assert (Hws : now (Sleep gracePeriod w1) = waitStart)
    by (world_simpl; rewrite Hnow1; reflexivity).
  destruct (pollLoop_completes env rc (now (Sleep gracePeriod w1)) pollFuel 0
              (Sleep gracePeriod w1))
    as (n & w2 & Hrun & Hn & Htr & Hno & Hearly & Hpos & Hend).
  { simpl. lia. }
  { lia. }
  { rewrite pollFuel_eq. lia. }
  { rewrite Hws. exact Hctx. }
  rewrite Hrun. rewrite Hws in *.
  exists n, w2. split; [reflexivity|].
  split; [split; [apply Hpos|]; lia|].
  split; [subst w1; trace_norm; rewrite Htr; trace_norm; reflexivity|].
  split.
  { apply pollLoop_frame in Hrun. destruct Hrun as (_ & Hm2 & _).
    rewrite Hm2. subst w1. world_simpl. exact Hm. }
  split; [exact Hend|].
  split.
  - intros k Hk. apply Hno; lia.
  - intros Hlt. apply Hearly. exact Hlt.
Qed.

(** C4. Once the connector function is there, the negotiation reads the two
    callback flags every 200 ms, starting when the grace period ends, at
    most 25 times (the last poll no later than 4.8 s in), and the loop is
    over within 5 s: what follows it takes the latency of the connector and
    of the liveness RPC at most. It stops polling at the first poll that
    finds both flags set, and in either case goes on to invoke the connector
    function. *)
Theorem poll_then_connect env rc pairingPhrase password mailboxServer devMode insecure
    w session connector :
  NewPrivateKey env = None ->
  NewClientWebsocketConn env mailboxServer pairingPhrase = inr session ->
  lndConnect session = Some connector ->
  let waitStart := now w + Z.of_N (relayLatency env) + gracePeriod in
  lnccontext.Done rc (waitStart + (maxWaitTime - pollInterval)) = false ->
  exists n out w' post,
    connectToLNC env (lnccontext.Request rc) pairingPhrase password mailboxServer
      devMode insecure w = Some (out, w') /\
    (1 <= n <= 25)%nat /\
    trace w' = trace w ++ (tlsEvents mailboxServer devMode insecure ++
                           [EvRelayOpen mailboxServer pairingPhrase]) ++
               map (pollAt env waitStart) (seq 0 n) ++
               EvStatusCheck :: EvLndConnect :: post /\
    Forall (fun e => ~ isPoll e) post /\
    now w' <= waitStart + maxWaitTime + Z.of_N (lndConnectLatency session)
              + Z.of_N (getInfoLatency env) /\
    (forall k, (S k < n)%nat ->
               bothFired env (waitStart + pollInterval * Z.of_nat k) = false) /\
    ((n < 25)%nat ->
       bothFired env (waitStart + pollInterval * Z.of_nat (n - 1)) = true).
Proof.
  intros Hkey Hrelay Hconn waitStart Hctx.
  destruct (connectToLNC_polled env rc pairingPhrase password mailboxServer devMode
              insecure w session connector Hkey Hrelay Hconn Hctx)
    as (n & w2 & Hrun & Hbound & Htr & _ & Hend & Hquiet & Hstop).
  fold waitStart in Htr, Hend, Hquiet, Hstop.
  rewrite Hrun. clear Hrun. exists n. cbv zeta.
  destruct connector as [e|conn];
    [|destruct (lnrpc.GetInfo (NewLightningClient env conn)) as [e|info]].
  - eexists _, _, []. split; [reflexivity|]. split; [exact Hbound|].
    split; [world_simpl; rewrite Htr, <- !app_assoc; reflexivity|].
    split; [constructor|]. split; [world_simpl; lia | auto].
  - eexists _, _, [EvGetInfo conn; EvClose conn]. split; [reflexivity|].
    split; [exact Hbound|].
    split; [world_simpl; rewrite Htr, <- !app_assoc; reflexivity|].
    split; [repeat constructor; auto|]. split; [world_simpl; lia | auto].
  - eexists _, _, [EvGetInfo conn]. split; [reflexivity|].
    split; [exact Hbound|].
    split; [world_simpl; rewrite Htr, <- !app_assoc; reflexivity|].
    split; [repeat constructor; auto|]. split; [world_simpl; lia | auto].
Qed.

(** ** The connect handler *)

Lemma quiet_not_close post : Forall (quiet false) post -> forall c, ~ In (EvClose c) post.
Proof.
  intros Hq c Hin. rewrite Forall_forall in Hq.
  apply list_elem_of_In in Hin. apply Hq in Hin. discriminate Hin.
Qed.


(** A request that fails validation is answered at once: nothing is
    stored, the world does not change. *)
Lemma HandleConnect_invalid env s ctx args w :
  match asString (args !! "pairingPhrase"), asString (args !! "password") with
  | Some pairingPhrase, Some _ => length (words pairingPhrase) <> 10%nat
  | _, _ => True
  end ->
  exists msg, HandleConnect env s ctx args w = Some (NewToolResultError msg, s, w).
Proof.
  unfold HandleConnect.
  destruct (asString (args !! "pairingPhrase")) as [p|]; [|eauto].
  destruct (asString (args !! "password")) as [pw|]; [|eauto].
  intros Hn. apply Nat.eqb_neq in Hn. rewrite Hn. simpl. eauto.
Qed.

(** A request that passes validation is handed to the negotiation. *)
Lemma HandleConnect_valid env s ctx args w pairingPhrase password :
  asString (args !! "pairingPhrase") = Some pairingPhrase ->
  asString (args !! "password") = Some password ->
  length (words pairingPhrase) = 10%nat ->
  HandleConnect env s ctx args w =
    match connectToLNC env
            (lnccontext.Request (lnccontext.New ctx "lnc_connect" 45000 (now w)))
            pairingPhrase password (mailboxServerOf env args)
            (devModeOf env args) (insecureOf env args) w with
    | None => None
    | Some (inl err, w) =>
        Some (NewToolResultError
                ("Failed to connect to Lightning node: " +:+ errorString err), s, w)
    | Some (inr (conn, nodeInfo), w) =>
        Some (NewToolResultText (connectedText nodeInfo (mailboxServerOf env args)),
              {| Connection := Some conn; ConnectionCallback := ConnectionCallback s |},
              match ConnectionCallback s with
              | Some callback => emit (EvCallback conn) (setManager (callback conn (manager w)) w)
              | None => w
              end)
    end.
Proof.
  intros Hp Hpw Hn. unfold HandleConnect. rewrite Hp, Hpw, Hn. reflexivity.
Qed.

(** Every connect request is answered, and what it leaves in the trace is
    the negotiation's events followed, on success, by the callback. *)
Lemma HandleConnect_frame env s ctx args w :
  exists res s' w' evs,
    HandleConnect env s ctx args w = Some (res, s', w') /\
    trace w' = trace w ++ evs /\
    ((exists msg, res = NewToolResultError msg) /\ s' = s /\
       manager w' = manager w /\
       (evs = [] /\ TLSClientConfig w' = TLSClientConfig w \/
        exists pairingPhrase post,
          asString (args !! "pairingPhrase") = Some pairingPhrase /\
          evs = tlsEvents (mailboxServerOf env args) (devModeOf env args) (insecureOf env args)
                ++ EvRelayOpen (mailboxServerOf env args) pairingPhrase :: post /\
          Forall (quiet true) post /\
          TLSClientConfig w' =
            (if insecureTransport (mailboxServerOf env args) (devModeOf env args)
                  (insecureOf env args)
             then Some {| InsecureSkipVerify := true |} else TLSClientConfig w))
     \/
     exists text conn info pairingPhrase post,
       res = NewToolResultText text /\
       s' = {| Connection := Some conn; ConnectionCallback := ConnectionCallback s |} /\
       asString (args !! "pairingPhrase") = Some pairingPhrase /\
       provenance env (mailboxServerOf env args) pairingPhrase (inr (conn, info)) /\
       evs = tlsEvents (mailboxServerOf env args) (devModeOf env args) (insecureOf env args)
             ++ EvRelayOpen (mailboxServerOf env args) pairingPhrase :: post
             ++ callbackEvents s conn /\
       Forall (quiet false) post /\
       TLSClientConfig w' =
         (if insecureTransport (mailboxServerOf env args) (devModeOf env args)
               (insecureOf env args)
          then Some {| InsecureSkipVerify := true |} else TLSClientConfig w)).
Proof.
  destruct (asString (args !! "pairingPhrase")) as [p|] eqn:Hp.
  2: { destruct (HandleConnect_invalid env s ctx args w) as [msg Hrun]; [rewrite Hp; exact I|].
       exists (NewToolResultError msg), s, w, []. rewrite app_nil_r.
       split; [exact Hrun|]. split; [reflexivity|]. left. eauto 10. }
  destruct (asString (args !! "password")) as [pw|] eqn:Hpw.
  2: { destruct (HandleConnect_invalid env s ctx args w) as [msg Hrun];
         [rewrite Hp, Hpw; exact I|].
       exists (NewToolResultError msg), s, w, []. rewrite app_nil_r.
       split; [exact Hrun|]. split; [reflexivity|]. left. eauto 10. }
  destruct (Nat.eq_dec (length (words p)) 10%nat) as [Hn|Hn].
  2: { destruct (HandleConnect_invalid env s ctx args w) as [msg Hrun];
         [rewrite Hp, Hpw; exact Hn|].
       exists (NewToolResultError msg), s, w, []. rewrite app_nil_r.
       split; [exact Hrun|]. split; [reflexivity|]. left. eauto 10. }
  rewrite (HandleConnect_valid env s ctx args w p pw Hp Hpw Hn).
  destruct (connectToLNC_frame env
              (lnccontext.Request (lnccontext.New ctx "lnc_connect" 45000 (now w)))
              p pw (mailboxServerOf env args) (devModeOf env args) (insecureOf env args) w)
    as (out & w1 & Hrun & Hm & Hprov & Hkey).
  rewrite Hrun.
  destruct (NewPrivateKey env) as [e|].
  { destruct Hkey as [-> ->]. eexists _, _, _, []. rewrite app_nil_r.
    split; [reflexivity|]. split; [reflexivity|]. left. eauto 10. }
  destruct Hkey as (post & Htr & Hq & Htls).
  destruct out as [err|[conn info]].
  - eexists _, _, _, _. split; [reflexivity|]. split; [exact Htr|]. left.
    split; [eauto|]. split; [reflexivity|]. split; [exact Hm|]. right.
    exists p, post. auto.
  - eexists _, _, _,
      (tlsEvents (mailboxServerOf env args) (devModeOf env args) (insecureOf env args)
       ++ EvRelayOpen (mailboxServerOf env args) p :: post ++ callbackEvents s conn).
    split; [reflexivity|]. split.
    + unfold callbackEvents. destruct (ConnectionCallback s); world_simpl.
      * rewrite Htr, <- !app_assoc. reflexivity.
      * rewrite Htr, app_nil_r. reflexivity.
    + right. eexists _, conn, info, p, post.
      split; [reflexivity|]. split; [reflexivity|]. split; [reflexivity|].
      split; [exact Hprov|]. split; [reflexivity|]. split; [exact Hq|].
      destruct (ConnectionCallback s); world_simpl; exact Htls.
Qed.

(** C1, at the input of the repository's own test case
    [extra_spaces_handled]: the phrase has ten fields, the test expects it
    to be valid, and the handler rejects it, because it splits on single
    spaces and counts the empty strings between them. The other way round,
    a phrase of eleven fields whose last separator is a tab counts as ten
    words for the handler. *)
Theorem irregular_whitespace_rejected env s ctx w :
  length (GoStrings.Fields spacedTenWords) = 10%nat /\
  length (words spacedTenWords) = 13%nat /\
  HandleConnect env s ctx (connectArgs spacedTenWords "secret") w =
    Some (NewToolResultError "pairingPhrase must contain exactly 10 words", s, w) /\
  length (GoStrings.Fields tabbedElevenWords) = 11%nat /\
  length (words tabbedElevenWords) = 10%nat.
Proof.
  split; [vm_compute; reflexivity|]. split; [vm_compute; reflexivity|].
  split; [|split; vm_compute; reflexivity].
  assert (Hn : length (words spacedTenWords) <> 10%nat) by (vm_compute; discriminate).
  unfold HandleConnect, connectArgs.
  rewrite lookup_insert_eq. rewrite lookup_insert_ne by discriminate.
  rewrite lookup_insert_eq. cbn [asString].
  apply Nat.eqb_neq in Hn. rewrite Hn. reflexivity.
Qed.

(** C2, as the code has it: a successful connect stores the connection the
    connector returned, over whatever was stored, and closes nothing on the
    way; a connection stored before stays open. *)
Theorem connect_replaces_without_closing env s ctx args w text s' w' :
  HandleConnect env s ctx args w = Some (NewToolResultText text, s', w') ->
  exists conn info pairingPhrase evs,
    Connection s' = Some conn /\
    provenance env (mailboxServerOf env args) pairingPhrase (inr (conn, info)) /\
    trace w' = trace w ++ evs /\
    forall c, ~ In (EvClose c) evs.
Proof.
  intros Hrun.
  destruct (HandleConnect_frame env s ctx args w)
    as (res & s1 & w1 & evs & Hrun' & Htr & Hcase).
  rewrite Hrun in Hrun'. injection Hrun' as <- <- <-.
  destruct Hcase as [([msg Hmsg] & _) | (text' & conn & info & p & post & _ & -> & _ & Hprov & -> & Hq & _)];
    [discriminate Hmsg|].
  exists conn, info, p. eexists. split; [reflexivity|]. split; [exact Hprov|].
  split; [exact Htr|]. intros c Hin.
  apply in_app_or in Hin. destruct Hin as [Hin|Hin].
  - unfold tlsEvents in Hin. destruct (insecureTransport _ _ _); simpl in Hin;
      [destruct Hin as [Hin|[]]; discriminate Hin | exact Hin].
  - destruct Hin as [Hin|Hin]; [discriminate Hin|].
    apply in_app_or in Hin. destruct Hin as [Hin|Hin].
    + exact (quiet_not_close post Hq c Hin).
    + unfold callbackEvents in Hin. destruct (ConnectionCallback s); simpl in Hin;
        [destruct Hin as [Hin|[]]; discriminate Hin | exact Hin].
Qed.

(** C3. When the connector gives a connection and the liveness RPC on it
    fails, the connection is closed right after the RPC, the request is
    answered with a connection failure, and the service is left as it was:
    the new connection is not stored and the callback does not run. With no
    connection stored before, a disconnect that follows finds none and
    leaves the world alone. *)
Theorem liveness_failure_closes_connection env s ctx args w
    pairingPhrase password session conn e :
  asString (args !! "pairingPhrase") = Some pairingPhrase ->
  asString (args !! "password") = Some password ->
  length (words pairingPhrase) = 10%nat ->
  NewPrivateKey env = None ->
  NewClientWebsocketConn env (mailboxServerOf env args) pairingPhrase = inr session ->
  lndConnect session = Some (inr conn) ->
  lnrpc.GetInfo (NewLightningClient env conn) = inl e ->
  lnccontext.Done (lnccontext.New ctx "lnc_connect" 45000 (now w))
    (now w + Z.of_N (relayLatency env) + gracePeriod + (maxWaitTime - pollInterval)) = false ->
  exists w' evs,
    HandleConnect env s ctx args w =
      Some (NewToolResultError
              ("Failed to connect to Lightning node: connected but failed to get node info: "
               +:+ e), s, w') /\
    trace w' = trace w ++ evs ++ [EvLndConnect; EvGetInfo conn; EvClose conn] /\
    manager w' = manager w /\
    (Connection s = None ->
       HandleDisconnect env s w' = (NewToolResultText disconnectedText, s, w')).
Proof.
  intros Hp Hpw Hn Hkey Hrelay Hconn Hinfo Hctx.
  rewrite (HandleConnect_valid env s ctx args w pairingPhrase password Hp Hpw Hn).
  destruct (connectToLNC_polled env (lnccontext.New ctx "lnc_connect" 45000 (now w))
              pairingPhrase password (mailboxServerOf env args) (devModeOf env args)
              (insecureOf env args) w session (inr conn) Hkey Hrelay Hconn Hctx)
    as (n & w2 & Hrun & _ & Htr & Hm & _).
  rewrite Hrun. cbv zeta. rewrite Hinfo.
  eexists _, ((tlsEvents (mailboxServerOf env args) (devModeOf env args) (insecureOf env args)
                ++ [EvRelayOpen (mailboxServerOf env args) pairingPhrase])
               ++ map (pollAt env (now w + Z.of_N (relayLatency env) + gracePeriod)) (seq 0 n)
               ++ [EvStatusCheck]).
  split; [reflexivity|]. world_simpl.
  split; [rewrite Htr, <- !app_assoc; reflexivity|].
  split; [exact Hm|].
  intros Hnone. unfold HandleDisconnect. rewrite Hnone. reflexivity.
Qed.


(** The text of a cancellation is the text of no other failure. *)
Lemma cancelled_error_distinct c err :
  errorString err = errorString (ErrCancelled c) -> err = ErrCancelled c.
Proof.
  destruct err as [e|e|c'|  |e|e]; cbn [errorString]; intros H;
    try (exfalso; cbv [String.append] in H; congruence).
  destruct c, c'; cbv [String.append ctxErrorString] in H; congruence.
Qed.

(** C7, where the code observes the cancellation: a context that is done
    before the grace timer fires, or that a poll check finds done (the
    checks run when the grace period ends and every 200 ms after, up to
    4.8 s, until a poll has seen both flags), ends the negotiation with
    [connection cancelled] wrapping the context's error, no later than
    200 ms after the context was done, without a connector call or an RPC;
    the text differs from the text of every other failure. The check the
    loop makes has a hole, shown by [cancellation_in_last_sleep_missed]. *)
Theorem cancellation_observed env rc pairingPhrase password mailboxServer devMode insecure
    w session d :
  NewPrivateKey env = None ->
  NewClientWebsocketConn env mailboxServer pairingPhrase = inr session ->
  doneAt (lnccontext.Ctx rc) = Some d ->
  let opened := now w + Z.of_N (relayLatency env) in
  let waitStart := opened + gracePeriod in
  d < waitStart \/
  (lndConnect session <> None /\
   d <= waitStart + (maxWaitTime - pollInterval) /\
   forall k : nat, waitStart + pollInterval * Z.of_nat k < d ->
                   bothFired env (waitStart + pollInterval * Z.of_nat k) = false) ->
  exists w' polls,
    connectToLNC env (lnccontext.Request rc) pairingPhrase password mailboxServer
      devMode insecure w
      = Some (inl (ErrCancelled (doneErr (lnccontext.Ctx rc))), w') /\
    trace w' = trace w ++ tlsEvents mailboxServer devMode insecure ++
               EvRelayOpen mailboxServer pairingPhrase :: polls /\
    Forall isPoll polls /\
    now w' < Z.max opened d + pollInterval /\
    forall err, errorString err = errorString (ErrCancelled (doneErr (lnccontext.Ctx rc))) ->
                err = ErrCancelled (doneErr (lnccontext.Ctx rc)).
Proof.
  intros Hkey Hrelay Hd opened waitStart Hwhen.
  unfold connectToLNC. rewrite Hkey, Hrelay. cbn [lnccontext.Ensure].
  destruct (configureTLS_frame mailboxServer devMode insecure w) as (Hnow & _ & _ & _).
  set (w1 := Sleep _ (emit _ (configureTLS mailboxServer devMode insecure w))).
  assert (Hnow1 : now w1 = opened) by (subst w1 opened; world_simpl; lia).
  assert (Htr1 : trace w1 = trace w ++ tlsEvents mailboxServer devMode insecure ++
                            [EvRelayOpen mailboxServer pairingPhrase])
    by (subst w1; trace_norm; reflexivity).
  clearbody w1.
  unfold graceWait. rewrite Hd, Hnow1. fold waitStart.
  unfold lnccontext.Err.
  destruct (d <? waitStart) eqn:E.
  - apply Z.ltb_lt in E. eexists _, []. split; [reflexivity|]. world_simpl.
    split; [exact Htr1|]. split; [constructor|].
    split; [unfold pollInterval; lia | apply cancelled_error_distinct].
  - apply Z.ltb_ge in E.
    destruct Hwhen as [Hlt | (Hconn & Hlast & Hflags)]; [lia|].
    destruct (lndConnect session) as [connector|]; [|congruence].
    assert (Hws : now (Sleep gracePeriod w1) = waitStart)
      by (world_simpl; rewrite Hnow1; reflexivity).
    rewrite Hws.
    destruct (pollLoop_cancelled env rc waitStart d pollFuel 0 (Sleep gracePeriod w1))
      as (w' & polls & Hrun & Htr & Hp & Hprompt);
      [rewrite Hws; simpl; lia | rewrite pollFuel_eq; lia | exact Hd | exact Hlast
      | rewrite Hws; unfold pollInterval; lia | exact Hflags |].
    rewrite Hrun. exists w', polls. split; [reflexivity|].
    split; [rewrite Htr; world_simpl; rewrite Htr1, <- !app_assoc; reflexivity|].
    split; [exact Hp|].
    split; [subst opened waitStart; unfold gracePeriod in *; lia
           | apply cancelled_error_distinct].
Qed.

(** C8, as the code has it: the password has to be there as a string, and
    that is all. Without a string under "password" the request is refused
    and the world stays as it was; what the string holds is never looked
    at, so the empty password is handled as any other. *)
Theorem password_presence_only env s ctx args w :
  (exists msg, HandleConnect env s ctx (delete "password" args) w
               = Some (NewToolResultError msg, s, w)) /\
  (forall v,
     match v with
     | VString password =>
         HandleConnect env s ctx (<["password" := VString password]> args) w
         = HandleConnect env s ctx (<["password" := VString ""]> args) w
     | _ =>
         exists msg, HandleConnect env s ctx (<["password" := v]> args) w
                     = Some (NewToolResultError msg, s, w)
     end).
Proof.
  assert (Hrefused : forall args',
    asString (args' !! "password") = None ->
    exists msg, HandleConnect env s ctx args' w = Some (NewToolResultError msg, s, w)).
  { intros args' Hnone. apply HandleConnect_invalid. rewrite Hnone.
    destruct (asString (args' !! "pairingPhrase")); exact I. }
  split; [apply Hrefused; rewrite lookup_delete_eq; reflexivity|].
  intros v.
  destruct v as [|b|q|password|];
    try (apply Hrefused; rewrite lookup_insert_eq; reflexivity).
  unfold HandleConnect, mailboxServerOf, getMailboxServer, devModeOf, insecureOf, flagOf.
  rewrite !lookup_insert_eq.
  rewrite !(lookup_insert_ne _ "password" "pairingPhrase") by discriminate.
  rewrite !(lookup_insert_ne _ "password" "mailbox") by discriminate.
  rewrite !(lookup_insert_ne _ "password" "devMode") by discriminate.
  rewrite !(lookup_insert_ne _ "password" "insecure") by discriminate.
  reflexivity.
Qed.

(** C10. A disconnect always answers with success and leaves no connection
    stored. A stored connection is closed, once, and whatever closing
    reports is dropped; with none stored, nothing happens at all. *)
Theorem disconnect_always_succeeds env s w :
  exists s' w',
    HandleDisconnect env s w = (NewToolResultText disconnectedText, s', w') /\
    Connection s' = None /\
    ConnectionCallback s' = ConnectionCallback s /\
    trace w' = trace w ++ match Connection s with
                          | Some conn => [EvClose conn]
                          | None => []
                          end /\
    match Connection s with
    | Some _ => now w' = now w /\ manager w' = manager w
    | None => s' = s /\ w' = w
    end.
Proof.
  unfold HandleDisconnect. destruct s as [[conn|] cb]; cbn [Connection ConnectionCallback].
  - destruct (Close env conn); eexists _, _; repeat split; reflexivity.
  - eexists _, _. rewrite app_nil_r. repeat split; reflexivity.
Qed.

(** ** The query services *)

Lemma truncate_integral z : truncate (Q2Qc (inject_Z z)) = z.
Proof.
  unfold truncate, Q2Qc. cbn [this].
  rewrite Qred_identity by (simpl; apply Z.gcd_1_r).
  simpl. apply Z.quot_1_r.
Qed.

Lemma uint64_integral env z : 0 <= z < 2 ^ 64 -> uint64 env (Q2Qc (inject_Z z)) = z.
Proof.
  intros [Hlo Hhi]. unfold uint64. rewrite truncate_integral.
  apply Z.leb_le in Hlo. apply Z.ltb_lt in Hhi. rewrite Hlo, Hhi. reflexivity.
Qed.

Lemma isZero_integral z : isZero (Q2Qc (inject_Z z)) = (z =? 0).
Proof.
  unfold isZero, Q2Qc. cbn [this].
  rewrite Qred_identity by (simpl; apply Z.gcd_1_r). reflexivity.
Qed.

(** C6. Whatever the tool and its arguments, a handler whose service has
    no client answers "not connected" and issues no RPC. *)
Theorem not_connected_without_client env m tool args :
  clientOf m tool = None ->
  dispatch env m tool args = (NewToolResultError notConnected, []).
Proof.
  destruct tool; cbn [clientOf dispatch]; intros Hnil;
    [ unfold HandleDecodeInvoice | unfold HandleListInvoices | unfold HandleLookupInvoice
    | unfold HandleListChannels | unfold HandlePendingChannels
    | unfold HandleListPayments | unfold HandleTrackPayment
    | unfold HandleListUnspent | unfold HandleGetTransactions | unfold HandleEstimateFee
    | unfold HandleListPeers | unfold HandleDescribeGraph | unfold HandleGetNodeInfo
    | unfold HandleGetBalance | unfold HandleGetInfo ];
    rewrite Hnil; reflexivity.
Qed.

(** C9, as the code has it: each of the two list handlers sends one
    request, made from the arguments of its own tool: an integral
    [index_offset] within [uint64] arrives unchanged (0 when it is missing),
    and so does an integral limit ([max_payments] for payments,
    [num_max_invoices] for invoices), except that the limit 0, like a
    missing limit, is replaced by 100. The two requests are independent:
    what one carries under the other tool's key has no part in it. *)
Theorem pagination_forwarded_or_defaulted env pay inv clientP clientI argsP argsI
    offsetP limitP offsetI limitI :
  PaymentService.LightningClient pay = Some clientP ->
  InvoiceService.LightningClient inv = Some clientI ->
  (forall z, offsetP = Some z \/ limitP = Some z \/ offsetI = Some z \/ limitI = Some z ->
             0 <= z < 2 ^ 64) ->
  argsP !! "index_offset" = numberArg offsetP ->
  argsP !! "max_payments" = numberArg limitP ->
  argsI !! "index_offset" = numberArg offsetI ->
  argsI !! "num_max_invoices" = numberArg limitI ->
  exists reqP reqI,
    snd (HandleListPayments env pay argsP) = [lnrpc.CallListPayments reqP] /\
    lnrpc.IndexOffset reqP = default 0 offsetP /\
    lnrpc.MaxPayments reqP = limitSent limitP /\
    snd (HandleListInvoices env inv argsI) = [lnrpc.CallListInvoices reqI] /\
    lnrpc.InvoiceIndexOffset reqI = default 0 offsetI /\
    lnrpc.NumMaxInvoices reqI = limitSent limitI.
Proof.
  intros HclientP HclientI Hrange HoffP HlimP HoffI HlimI.
  assert (Hoffset : forall (args : gmap string Value) offset,
    (forall z, offset = Some z -> 0 <= z < 2 ^ 64) ->
    args !! "index_offset" = numberArg offset ->
    uint64 env (floatArg args "index_offset") = default 0 offset).
  { intros args offset Hr Hoff. unfold floatArg. rewrite Hoff. destruct offset as [z|]; cbn.
    - apply uint64_integral, Hr. reflexivity.
    - apply (uint64_integral env 0). lia. }
  assert (Hlimit : forall (args : gmap string Value) k limit,
    (forall z, limit = Some z -> 0 <= z < 2 ^ 64) ->
    args !! k = numberArg limit ->
    uint64 env (if isZero (floatArg args k) then Q2Qc 100 else floatArg args k)
    = limitSent limit).
  { intros args k limit Hr Hk. unfold floatArg. rewrite Hk. destruct limit as [l|]; cbn.
    - rewrite isZero_integral. destruct (l =? 0).
      + apply (uint64_integral env 100). lia.
      + apply uint64_integral, Hr. reflexivity.
    - apply (uint64_integral env 100). lia. }
  unfold HandleListPayments, HandleListInvoices. rewrite HclientP, HclientI.
  unfold answer. eexists _, _.
  split; [destruct (lnrpc.ListPayments clientP _); reflexivity|].
  split; [apply (Hoffset argsP offsetP); [intros z Hz; apply Hrange; auto|exact HoffP]|].
  split; [apply (Hlimit argsP _ limitP); [intros z Hz; apply Hrange; auto|exact HlimP]|].
  split; [destruct (lnrpc.ListInvoices clientI _); reflexivity|].
  split; [apply (Hoffset argsI offsetI); [intros z Hz; apply Hrange; auto|exact HoffI]|].
  apply (Hlimit argsI _ limitI); [intros z Hz; apply Hrange; auto 6|exact HlimI].
Qed.

(** ** The properties at work *)

(** C2, as stated, fails: connection 1 is stored, a connect succeeds with
    connection 7, which takes its place, and connection 1 was never closed. *)
Lemma previous_connection_left_open :
  Connection (holding reachable) = Some 1%nat /\
  exists text s' w',
    HandleConnect reachable (holding reachable) (lnccontext.Plain background)
      (connectArgs tenWords "secret") world0 = Some (NewToolResultText text, s', w') /\
    Connection s' = Some 7%nat /\
    lncConnection (manager w') = Some 7%nat /\
    ~ In (EvClose 1%nat) (trace w').
Proof.
  split; [reflexivity|]. eexists _, _, _.
  split; [vm_compute; reflexivity|]. split; [reflexivity|]. split; [reflexivity|].
  cbn [trace]. intros Hin. repeat (destruct Hin as [Hin|Hin]; [discriminate Hin|]).
  exact Hin.
Qed.

Lemma connect_replaces_without_closing_witness :
  exists text s' w',
    HandleConnect reachable (holding reachable) (lnccontext.Plain background)
      (connectArgs tenWords "secret") world0 = Some (NewToolResultText text, s', w') /\
    exists conn info pairingPhrase evs,
      Connection s' = Some conn /\
      provenance reachable
        (mailboxServerOf reachable (connectArgs tenWords "secret")) pairingPhrase
        (inr (conn, info)) /\
      trace w' = trace world0 ++ evs /\
      forall c, ~ In (EvClose c) evs.
Proof.
  eexists _, _, _. split; [vm_compute; reflexivity|].
  apply (connect_replaces_without_closing reachable (holding reachable)
           (lnccontext.Plain background) (connectArgs tenWords "secret") world0
           (connectedText sampleInfo productionMailbox)).
  vm_compute. reflexivity.
Defined.

Lemma liveness_failure_closes_connection_witness :
  exists w' evs,
    HandleConnect unresponsive (NewConnectionService None) (lnccontext.Plain background)
      (connectArgs tenWords "secret") world0 =
      Some (NewToolResultError
              ("Failed to connect to Lightning node: connected but failed to get node info: "
               +:+ "rpc error: code = DeadlineExceeded"), NewConnectionService None, w') /\
    trace w' = trace world0 ++ evs ++ [EvLndConnect; EvGetInfo 7%nat; EvClose 7%nat] /\
    manager w' = manager world0 /\
    (Connection (NewConnectionService None) = None ->
       HandleDisconnect unresponsive (NewConnectionService None) w'
       = (NewToolResultText disconnectedText, NewConnectionService None, w')).
Proof.
  apply (liveness_failure_closes_connection unresponsive (NewConnectionService None)
           (lnccontext.Plain background) (connectArgs tenWords "secret") world0
           tenWords "secret" sampleSession 7%nat "rpc error: code = DeadlineExceeded");
    vm_compute; reflexivity.
Defined.

Lemma poll_then_connect_witness :
  exists n out w' post,
    connectToLNC reachable (lnccontext.Request (requestContext background))
      tenWords "secret" productionMailbox false false world0 = Some (out, w') /\
    (1 <= n <= 25)%nat /\
    trace w' = trace world0 ++ (tlsEvents productionMailbox false false ++
                                [EvRelayOpen productionMailbox tenWords]) ++
               map (pollAt reachable 3100) (seq 0 n) ++
               EvStatusCheck :: EvLndConnect :: post /\
    Forall (fun e => ~ isPoll e) post /\
    now w' <= 3100 + maxWaitTime + 150 + 50 /\
    (forall k, (S k < n)%nat ->
               bothFired reachable (3100 + pollInterval * Z.of_nat k) = false) /\
    ((n < 25)%nat ->
       bothFired reachable (3100 + pollInterval * Z.of_nat (n - 1)) = true).
Proof.
  apply (poll_then_connect reachable (requestContext background) tenWords "secret"
           productionMailbox false false world0 sampleSession (inr 7%nat));
    vm_compute; reflexivity.
Defined.

(** C7, where the code misses the cancellation: the context is cancelled
    while the poll loop is asleep for the last time (4.9 s after the loop
    began, the last check having run at 4.8 s); the sleep cannot be
    interrupted and no check follows it, so the loop ends as if nothing had
    happened, the connector is called, and the failure that comes back is
    the RPC's. *)
Lemma cancellation_in_last_sleep_missed :
  lnccontext.Done (requestContext (cancelledAt 8000)) 3100 = false /\
  lnccontext.Done (requestContext (cancelledAt 8000)) (3100 + maxWaitTime - 1) = true /\
  exists w',
    connectToLNC cancelledLate (lnccontext.Request (requestContext (cancelledAt 8000)))
      tenWords "secret" productionMailbox false false world0
      = Some (inl (ErrGetInfo "rpc error: code = Canceled desc = context canceled"), w') /\
    In EvLndConnect (trace w') /\
    In (EvGetInfo 7%nat) (trace w') /\
    now w' = 8300.
Proof.
  split; [reflexivity|]. split; [reflexivity|]. eexists.
  split; [vm_compute; reflexivity|]. cbn [trace now].
  split; [|split; [|reflexivity]]; repeat (try (left; reflexivity); right).
Qed.

Lemma cancellation_observed_witness :
  exists w' polls,
    connectToLNC unresponsive (lnccontext.Request (requestContext (cancelledAt 3450)))
      tenWords "secret" productionMailbox false false world0
      = Some (inl (ErrCancelled Canceled), w') /\
    trace w' = trace world0 ++ tlsEvents productionMailbox false false ++
               EvRelayOpen productionMailbox tenWords :: polls /\
    Forall isPoll polls /\
    now w' < Z.max 100 3450 + pollInterval /\
    forall err, errorString err = errorString (ErrCancelled Canceled) ->
                err = ErrCancelled Canceled.
Proof.
  apply (cancellation_observed unresponsive (requestContext (cancelledAt 3450))
           tenWords "secret" productionMailbox false false world0 sampleSession 3450);
    try reflexivity.
  right. split; [discriminate|]. split; [vm_compute; discriminate|].
  intros k _. reflexivity.
Defined.

(** C8, as stated, fails: with the empty password the relay session is
    opened and the node connected. *)
Lemma empty_password_accepted :
  asString (connectArgs tenWords "" !! "password") = Some "" /\
  exists text s' w',
    HandleConnect reachable (NewConnectionService None) (lnccontext.Plain background)
      (connectArgs tenWords "") world0 = Some (NewToolResultText text, s', w') /\
    Connection s' = Some 7%nat /\
    In (EvRelayOpen productionMailbox tenWords) (trace w').
Proof.
  split; [reflexivity|]. eexists _, _, _.
  split; [vm_compute; reflexivity|]. split; [reflexivity|].
  cbn [trace]. left. reflexivity.
Qed.

Lemma not_connected_without_client_witness :
  clientOf InitializeServices lnc_list_payments = None /\
  dispatch reachable InitializeServices lnc_list_payments (pageArgs 40 20)
  = (NewToolResultError notConnected, []).
Proof.
  split; [reflexivity|].
  apply (not_connected_without_client reachable InitializeServices lnc_list_payments).
  reflexivity.
Defined.

(** C9, as stated, fails: the caller's limit 0 reaches the node as 100,
    for payments and for invoices. *)
Lemma zero_limit_replaced :
  pageArgs 40 0 !! "max_payments" = Some (VNumber (Q2Qc (inject_Z 0))) /\
  snd (HandleListPayments reachable connectedPayments (pageArgs 40 0)) =
    [lnrpc.CallListPayments
       {| lnrpc.IncludeIncomplete := false; lnrpc.IndexOffset := 40;
          lnrpc.MaxPayments := 100; lnrpc.Reversed := false |}] /\
  snd (HandleListInvoices reachable connectedInvoices (pageArgs 40 0)) =
    [lnrpc.CallListInvoices
       {| lnrpc.PendingOnly := false; lnrpc.InvoiceIndexOffset := 40;
          lnrpc.NumMaxInvoices := 100; lnrpc.InvoiceReversed := false |}].
Proof.
  split; [reflexivity|]. split; vm_compute; reflexivity.
Qed.

Lemma pagination_forwarded_or_defaulted_witness :
  exists reqP reqI,
    snd (HandleListPayments reachable connectedPayments (paymentsPage 40 20))
      = [lnrpc.CallListPayments reqP] /\
    lnrpc.IndexOffset reqP = default 0 (Some 40) /\
    lnrpc.MaxPayments reqP = limitSent (Some 20) /\
    snd (HandleListInvoices reachable connectedInvoices (invoicesPage 7 0))
      = [lnrpc.CallListInvoices reqI] /\
    lnrpc.InvoiceIndexOffset reqI = default 0 (Some 7) /\
    lnrpc.NumMaxInvoices reqI = limitSent (Some 0).
Proof.
  apply (pagination_forwarded_or_defaulted reachable connectedPayments connectedInvoices
           (sampleClient (inr sampleInfo)) (sampleClient (inr sampleInfo))
           (paymentsPage 40 20) (invoicesPage 7 0) (Some 40) (Some 20) (Some 7) (Some 0)).
  - reflexivity.
  - reflexivity.
  - intros z [[= <-]|[[= <-]|[[= <-]|[= <-]]]]; lia.
  - vm_compute. reflexivity.
  - vm_compute. reflexivity.
  - vm_compute. reflexivity.
  - vm_compute. reflexivity.
Defined.

(** * Further properties *)

(** ** The negotiation, step by step *)

(** The trace of a negotiation has one shape: the TLS switch if it
    applies, the opening of the relay session, polls, and then what
    [stopsWith] lists for the outcome. *)
Lemma connectToLNC_shape env ctx pairingPhrase password mailboxServer devMode
    insecure w :
  NewPrivateKey env = None ->
  exists out w' polls tail,
    connectToLNC env ctx pairingPhrase password mailboxServer devMode insecure w
      = Some (out, w') /\
    trace w' = trace w ++ tlsEvents mailboxServer devMode insecure ++
               EvRelayOpen mailboxServer pairingPhrase :: polls ++ tail /\
    Forall isPoll polls /\
    stopsWith out tail.
Proof.
  intros Hkey. unfold connectToLNC. rewrite Hkey.
  set (rc := lnccontext.Ensure ctx _ _).
  set (w1 := Sleep _ (emit _ (configureTLS mailboxServer devMode insecure w))).
  assert (Htr1 : trace w1 = trace w ++ tlsEvents mailboxServer devMode insecure ++
                            [EvRelayOpen mailboxServer pairingPhrase])
    by (subst w1; trace_norm; reflexivity).
  clearbody w1.
  assert (Hstop : forall (out : ConnectError + ClientConn * lnrpc.GetInfoResponse)
                         w' polls tail,
    trace w' = trace w1 ++ polls ++ tail -> Forall isPoll polls -> stopsWith out tail ->
    exists out0 w0 polls0 tail0,
      Some (out, w') = Some (out0, w0) /\
      trace w0 = trace w ++ tlsEvents mailboxServer devMode insecure ++
                 EvRelayOpen mailboxServer pairingPhrase :: polls0 ++ tail0 /\
      Forall isPoll polls0 /\ stopsWith out0 tail0).
  { intros out w' polls tail Htr Hp Hs. exists out, w', polls, tail.
    split; [reflexivity|]. split; [|auto].
    rewrite Htr, Htr1, <- !app_assoc. reflexivity. }
  destruct (NewClientWebsocketConn env mailboxServer pairingPhrase) as [e|session].
  { apply (Hstop _ _ [] []); simpl; auto. rewrite app_nil_r. reflexivity. }
  assert (Hgo : forall w2, trace w2 = trace w1 ->
    exists out0 w0 polls0 tail0,
      match lndConnect session with
      | Some connector =>
          match pollLoop env rc (now w2) pollFuel w2 with
          | Some (Some e, w) => Some (inl (ErrCancelled e), w)
          | Some (None, w) =>
              let w := emit EvStatusCheck w in
              let w := Sleep (Z.of_N (lndConnectLatency session)) (emit EvLndConnect w) in
              match connector with
              | inl e => Some (inl (ErrLndConnect e), w)
              | inr conn =>
                  let w := Sleep (Z.of_N (getInfoLatency env)) (emit (EvGetInfo conn) w) in
                  match lnrpc.GetInfo (NewLightningClient env conn) with
                  | inl e => Some (inl (ErrGetInfo e), emit (EvClose conn) w)
                  | inr info => Some (inr (conn, info), w)
                  end
              end
          | None => None
          end
      | None => Some (inl ErrNoConnector, w2)
      end = Some (out0, w0) /\
      trace w0 = trace w ++ tlsEvents mailboxServer devMode insecure ++
                 EvRelayOpen mailboxServer pairingPhrase :: polls0 ++ tail0 /\
      Forall isPoll polls0 /\ stopsWith out0 tail0).
  { intros w2 Htr2.
    destruct (lndConnect session) as [connector|];
      [| apply (Hstop _ _ [] []); simpl; auto; rewrite app_nil_r; exact Htr2].
    destruct (pollLoop_total env rc (now w2) pollFuel w2) as [[r w3] Hrun];
      [rewrite pollFuel_eq; lia
      | rewrite pollFuel_eq; unfold maxWaitTime, pollInterval; lia |].
    rewrite Hrun. apply pollLoop_frame in Hrun.
    destruct Hrun as (_ & _ & _ & polls & Htr3 & Hpolls).
    destruct r as [e|].
    { apply (Hstop _ _ polls []); simpl; auto. rewrite app_nil_r. congruence. }
    cbv zeta.
    destruct connector as [e|conn].
    { apply (Hstop _ _ polls [EvStatusCheck; EvLndConnect]); simpl; auto.
      rewrite Htr3, Htr2, <- !app_assoc. reflexivity. }
    destruct (lnrpc.GetInfo (NewLightningClient env conn)) as [e|info].
    - apply (Hstop _ _ polls [EvStatusCheck; EvLndConnect; EvGetInfo conn; EvClose conn]);
        simpl; eauto.
      rewrite Htr3, Htr2, <- !app_assoc. reflexivity.
    - apply (Hstop _ _ polls [EvStatusCheck; EvLndConnect; EvGetInfo conn]); simpl; auto.
      rewrite Htr3, Htr2, <- !app_assoc. reflexivity. }
  unfold graceWait.
  destruct (doneAt (lnccontext.Ctx rc)) as [d|];
    [destruct (d <? now w1 + gracePeriod)|].
  - apply (Hstop _ _ [] []); simpl; auto. rewrite app_nil_r. reflexivity.
  - apply Hgo; reflexivity.
  - apply Hgo; reflexivity.
Qed.

(** X1. A relay session without a connector function ends the negotiation
    when the grace period is over: no poll, no connector call, no RPC, and
    the failure says the connector is not available. *)
Theorem no_connector_fails_after_grace env rc pairingPhrase password mailboxServer
    devMode insecure w session :
  NewPrivateKey env = None ->
  NewClientWebsocketConn env mailboxServer pairingPhrase = inr session ->
  lndConnect session = None ->
  lnccontext.Done rc (now w + Z.of_N (relayLatency env) + gracePeriod - 1) = false ->
  exists w',
    connectToLNC env (lnccontext.Request rc) pairingPhrase password mailboxServer
      devMode insecure w = Some (inl ErrNoConnector, w') /\
    trace w' = trace w ++ tlsEvents mailboxServer devMode insecure ++
               [EvRelayOpen mailboxServer pairingPhrase] /\
    now w' = now w + Z.of_N (relayLatency env) + gracePeriod /\
    manager w' = manager w.
Proof.
  intros Hkey Hrelay Hconn Hctx.
  unfold connectToLNC. rewrite Hkey, Hrelay. cbn [lnccontext.Ensure].
  destruct (configureTLS_frame mailboxServer devMode insecure w) as (Hnow & Hm & _ & _).
  set (w1 := Sleep _ (emit _ (configureTLS mailboxServer devMode insecure w))).
  assert (Hnow1 : now w1 = now w + Z.of_N (relayLatency env))
    by (subst w1; world_simpl; lia).
  assert (Hgrace : graceWait rc w1 = (None, Sleep gracePeriod w1)).
  { unfold graceWait. unfold lnccontext.Done, ctxDone in Hctx.
    destruct (doneAt (lnccontext.Ctx rc)) as [d|]; [|reflexivity].
    apply Z.leb_gt in Hctx.
    destruct (d <? now w1 + gracePeriod) eqn:E; [|reflexivity].
    apply Z.ltb_lt in E. lia. }
  rewrite Hgrace, Hconn. eexists. split; [reflexivity|].
  split; [subst w1; trace_norm; reflexivity|].
  split; [world_simpl; lia|]. subst w1. world_simpl. exact Hm.
Qed.

Lemma no_connector_fails_after_grace_witness :
  exists w',
    connectToLNC (sampleEnv None (inr sampleInfo) None None)
      (lnccontext.Request (requestContext background))
      tenWords "secret" productionMailbox false false world0
      = Some (inl ErrNoConnector, w') /\
    trace w' = trace world0 ++ tlsEvents productionMailbox false false ++
               [EvRelayOpen productionMailbox tenWords] /\
    now w' = now world0 + Z.of_N (relayLatency (sampleEnv None (inr sampleInfo) None None))
             + gracePeriod /\
    manager w' = manager world0.
Proof.
  apply (no_connector_fails_after_grace (sampleEnv None (inr sampleInfo) None None)
           (requestContext background) tenWords "secret" productionMailbox false false
           world0 {| lndConnect := None; lndConnectLatency := 150 |});
    reflexivity.
Defined.

(** A request is refused on the spot, or fails for want of a session key,
    or runs the negotiation and concludes from its outcome. *)
Lemma HandleConnect_outcome env s ctx args w :
  (exists msg, HandleConnect env s ctx args w = Some (NewToolResultError msg, s, w)) \/
  exists pairingPhrase password out w1,
    asString (args !! "pairingPhrase") = Some pairingPhrase /\
    asString (args !! "password") = Some password /\
    length (words pairingPhrase) = 10%nat /\
    NewPrivateKey env = None /\
    connectToLNC env (lnccontext.Request (lnccontext.New ctx "lnc_connect" 45000 (now w)))
      pairingPhrase password (mailboxServerOf env args) (devModeOf env args)
      (insecureOf env args) w = Some (out, w1) /\
    HandleConnect env s ctx args w = Some (concluded env s args out w1).
Proof.
  destruct (asString (args !! "pairingPhrase")) as [p|] eqn:Hp;
    [|left; apply HandleConnect_invalid; rewrite Hp; exact I].
  destruct (asString (args !! "password")) as [pw|] eqn:Hpw;
    [|left; apply HandleConnect_invalid; rewrite Hp, Hpw; exact I].
  destruct (Nat.eq_dec (length (words p)) 10%nat) as [Hn|Hn];
    [|left; apply HandleConnect_invalid; rewrite Hp, Hpw; exact Hn].
  pose proof (HandleConnect_valid env s ctx args w p pw Hp Hpw Hn) as Hvalid.
  destruct (connectToLNC_frame env
              (lnccontext.Request (lnccontext.New ctx "lnc_connect" 45000 (now w)))
              p pw (mailboxServerOf env args) (devModeOf env args) (insecureOf env args) w)
    as (out & w1 & Hrun & _ & _ & Hkey).
  rewrite Hrun in Hvalid.
  destruct (NewPrivateKey env) as [e|] eqn:Hk.
  - destruct Hkey as [-> ->]. left. eauto.
  - right. exists p, pw, out, w1. repeat split; auto.
    rewrite Hvalid. unfold concluded. destruct out as [err|[conn info]]; reflexivity.
Qed.

Lemma isPoll_closings conn polls : Forall isPoll polls -> closings conn polls = 0%nat.
Proof.
  unfold closings. induction 1 as [|e polls He _ IH]; [reflexivity|].
  destruct e; try contradiction. simpl. exact IH.
Qed.

Lemma closings_app conn l1 l2 :
  closings conn (l1 ++ l2) = (closings conn l1 + closings conn l2)%nat.
Proof. unfold closings. rewrite List.filter_app, length_app. reflexivity. Qed.

Lemma tlsEvents_closings conn mb dev ins : closings conn (tlsEvents mb dev ins) = 0%nat.
Proof. unfold tlsEvents. destruct (insecureTransport mb dev ins); reflexivity. Qed.

Lemma isPoll_not_in e polls :
  Forall isPoll polls -> ~ isPoll e -> ~ In e polls.
Proof.
  intros Hp Hne Hin. rewrite Forall_forall in Hp.
  apply list_elem_of_In in Hin. exact (Hne (Hp _ Hin)).
Qed.

Lemma stopsWith_failure err tail :
  stopsWith (inl err) tail ->
  (forall conn, ~ In (EvCallback conn) tail) /\
  (forall conn, In (EvGetInfo conn) tail -> closings conn tail = 1%nat).
Proof.
  destruct err; simpl; intros H; try contradiction;
    try (subst tail; split; intros conn Hin; simpl in Hin;
         repeat (destruct Hin as [Hin|Hin]; [discriminate Hin|]); contradiction).
  destruct H as [c ->]. split; intros conn Hin; simpl in Hin;
    repeat (destruct Hin as [Hin|Hin]; [try discriminate Hin|]); try contradiction.
  injection Hin as ->. unfold closings. simpl. rewrite Nat.eqb_refl. reflexivity.
Qed.

(** X2. Every connect request is answered, and its trace has one shape.
    Either nothing happened (the request was refused, or no session key
    could be made), or: the TLS switch if it applies, the opening of the
    relay session with the resolved address and the caller's phrase, polls,
    and then what the outcome allows. A failure before the connector leaves
    nothing more; a connector failure leaves the status check and the
    connector call; a liveness failure adds the RPC and the closing of that
    connection; a success adds the RPC and the callback on that connection,
    which is the one stored. So the connector is called at most once, and a
    connection is closed only right after its liveness RPC failed. *)
Theorem connect_trace_shape env s ctx args w :
  exists res s' w' evs,
    HandleConnect env s ctx args w = Some (res, s', w') /\
    trace w' = trace w ++ evs /\
    ((evs = [] /\ s' = s /\ exists msg, res = NewToolResultError msg) \/
     exists pairingPhrase out polls tail,
       asString (args !! "pairingPhrase") = Some pairingPhrase /\
       evs = tlsEvents (mailboxServerOf env args) (devModeOf env args) (insecureOf env args)
             ++ EvRelayOpen (mailboxServerOf env args) pairingPhrase :: polls ++ tail
             ++ match out with
                | inl _ => []
                | inr (conn, _) => callbackEvents s conn
                end /\
       Forall isPoll polls /\
       stopsWith out tail /\
       match out with
       | inl err =>
           res = NewToolResultError
                   ("Failed to connect to Lightning node: " +:+ errorString err) /\
           s' = s
       | inr (conn, info) =>
           res = NewToolResultText (connectedText info (mailboxServerOf env args)) /\
           Connection s' = Some conn
       end).
Proof.
  destruct (HandleConnect_outcome env s ctx args w)
    as [[msg Hrun] | (p & pw & out & w1 & Hp & _ & _ & Hkey & Hneg & Hrun)].
  { exists (NewToolResultError msg), s, w, []. rewrite app_nil_r. eauto 10. }
  destruct (connectToLNC_shape env
              (lnccontext.Request (lnccontext.New ctx "lnc_connect" 45000 (now w)))
              p pw (mailboxServerOf env args) (devModeOf env args) (insecureOf env args)
              w Hkey)
    as (out' & w1' & polls & tail & Hneg' & Htr & Hpolls & Hstops).
  rewrite Hneg in Hneg'. injection Hneg' as <- <-.
  rewrite Hrun. unfold concluded.
  destruct out as [err|[conn info]].
  - eexists _, _, _, _. split; [reflexivity|]. split; [exact Htr|]. right.
    exists p, (inl err), polls, tail. rewrite app_nil_r.
    split; [exact Hp|]. split; [reflexivity|]. split; [exact Hpolls|].
    split; [exact Hstops|]. split; reflexivity.
  - eexists _, _, _,
      (tlsEvents (mailboxServerOf env args) (devModeOf env args) (insecureOf env args)
       ++ EvRelayOpen (mailboxServerOf env args) p :: polls ++ tail ++ callbackEvents s conn).
    split; [reflexivity|]. split.
    + unfold callbackEvents. destruct (ConnectionCallback s); world_simpl;
        rewrite Htr, ?app_nil_r;
        repeat (rewrite <- app_assoc || rewrite <- app_comm_cons); reflexivity.
    + right. exists p, (inr (conn, info)), polls, tail.
      split; [exact Hp|]. split; [reflexivity|]. split; [exact Hpolls|].
      split; [exact Hstops|]. split; reflexivity.
Qed.

(** X3. A connect request that fails leaves no connection behind: the
    service holds what it held, the manager is untouched, the callback did
    not run, and a connection that got as far as the liveness RPC was
    closed, once. *)
Theorem failed_connect_leaks_nothing env s ctx args w msg s' w' :
  HandleConnect env s ctx args w = Some (NewToolResultError msg, s', w') ->
  s' = s /\ manager w' = manager w /\
  exists evs,
    trace w' = trace w ++ evs /\
    (forall conn, ~ In (EvCallback conn) evs) /\
    (forall conn, In (EvGetInfo conn) evs -> closings conn evs = 1%nat).
Proof.
  intros Hres.
  destruct (HandleConnect_outcome env s ctx args w)
    as [[msg' Hrun] | (p & pw & out & w1 & _ & _ & _ & Hkey & Hneg & Hrun)].
  { rewrite Hrun in Hres. injection Hres as _ <- <-.
    split; [reflexivity|]. split; [reflexivity|]. exists []. rewrite app_nil_r.
    split; [reflexivity|]. split; intros conn []. }
  destruct (connectToLNC_frame env
              (lnccontext.Request (lnccontext.New ctx "lnc_connect" 45000 (now w)))
              p pw (mailboxServerOf env args) (devModeOf env args) (insecureOf env args) w)
    as (out0 & w0 & Hneg0 & Hm & _).
  rewrite Hneg in Hneg0. injection Hneg0 as <- <-.
  destruct (connectToLNC_shape env
              (lnccontext.Request (lnccontext.New ctx "lnc_connect" 45000 (now w)))
              p pw (mailboxServerOf env args) (devModeOf env args) (insecureOf env args)
              w Hkey)
    as (out' & w1' & polls & tail & Hneg' & Htr & Hpolls & Hstops).
  rewrite Hneg in Hneg'. injection Hneg' as <- <-.
  rewrite Hrun in Hres. unfold concluded in Hres.
  destruct out as [err|[conn info]]; [|discriminate Hres].
  injection Hres as _ <- <-.
  split; [reflexivity|]. split; [exact Hm|].
  eexists. split; [exact Htr|].
  assert (Htail : forall e, In e (tlsEvents (mailboxServerOf env args) (devModeOf env args)
                                    (insecureOf env args)
                                  ++ EvRelayOpen (mailboxServerOf env args) p :: polls ++ tail) ->
                            ~ isPoll e -> e <> EvTLSInsecure ->
                            (forall mb ph, e <> EvRelayOpen mb ph) -> In e tail).
  { intros e Hin Hnp Hnt Hnr. apply in_app_or in Hin. destruct Hin as [Hin|Hin].
    - unfold tlsEvents in Hin. destruct (insecureTransport _ _ _); simpl in Hin;
        [destruct Hin as [<-|[]]; congruence | contradiction].
    - destruct Hin as [<-|Hin]; [destruct (Hnr _ _ eq_refl)|].
      apply in_app_or in Hin. destruct Hin as [Hin|Hin]; [|exact Hin].
      destruct (isPoll_not_in e polls Hpolls Hnp Hin). }
  destruct (stopsWith_failure err tail Hstops) as [Hcb Hinfo].
  split.
  - intros conn Hin. apply Htail in Hin; try (simpl; tauto); try discriminate.
    exact (Hcb conn Hin).
  - intros conn Hin. apply Htail in Hin; try (simpl; tauto); try discriminate.
    rewrite closings_app, tlsEvents_closings.
    change (EvRelayOpen (mailboxServerOf env args) p :: polls ++ tail)
      with ([EvRelayOpen (mailboxServerOf env args) p] ++ polls ++ tail).
    rewrite !closings_app, (isPoll_closings conn polls Hpolls).
    rewrite (Hinfo conn Hin). reflexivity.
Qed.

Lemma failed_connect_leaks_nothing_witness :
  exists msg s' w',
    HandleConnect unresponsive (holding unresponsive) (lnccontext.Plain background)
      (connectArgs tenWords "secret") world0 = Some (NewToolResultError msg, s', w') /\
    s' = holding unresponsive /\ manager w' = manager world0 /\
    exists evs,
      trace w' = trace world0 ++ evs /\
      (forall conn, ~ In (EvCallback conn) evs) /\
      (forall conn, In (EvGetInfo conn) evs -> closings conn evs = 1%nat).
Proof.
  eexists _, _, _. split; [vm_compute; reflexivity|].
  eapply (failed_connect_leaks_nothing unresponsive (holding unresponsive)
            (lnccontext.Plain background) (connectArgs tenWords "secret") world0).
  vm_compute. reflexivity.
Defined.

(** ** How long a connect request takes *)

(** The poll loop is over by [waitStart + maxWaitTime]. *)
Lemma pollLoop_clock env rc ws fuel : forall w r w',
  pollLoop env rc ws fuel w = Some (r, w') ->
  (exists k, now w = ws + pollInterval * k) ->
  now w <= ws + maxWaitTime ->
  now w' <= ws + maxWaitTime.
Proof.
  induction fuel as [|fuel IH]; intros w r w' Hrun [k Hk] Hle; [discriminate Hrun|].
  cbn [pollLoop] in Hrun.
  destruct (now w - ws <? maxWaitTime) eqn:Hlt; [|injection Hrun as _ <-; exact Hle].
  destruct (lnccontext.Done rc (now w)); [injection Hrun as _ <-; exact Hle|].
  cbv zeta in Hrun.
  destruct (authReceived env (now w) && remotePubSet env (now w)).
  - injection Hrun as _ <-. exact Hle.
  - apply IH in Hrun; [exact Hrun| |]; world_simpl.
    + exists (k + 1). rewrite Hk. ring.
    + apply Z.ltb_lt in Hlt. unfold maxWaitTime, pollInterval in *. lia.
Qed.

Lemma graceWait_clock rc w r w' :
  graceWait rc w = (r, w') -> now w <= now w' <= now w + gracePeriod.
Proof.
  unfold graceWait. destruct (doneAt (lnccontext.Ctx rc)) as [d|].
  - destruct (d <? now w + gracePeriod) eqn:Hd; intros H; injection H as _ <-; world_simpl.
    + apply Z.ltb_lt in Hd. unfold gracePeriod in *. lia.
    + unfold gracePeriod. lia.
  - intros H. injection H as _ <-. world_simpl. unfold gracePeriod. lia.
Qed.

(** The waits of the negotiation itself add up to at most the grace period
    and the polling time; the rest is the relay's, the connector's and the
    node's. *)
Lemma connectToLNC_clock env ctx pairingPhrase password mailboxServer devMode insecure w out w' :
  connectToLNC env ctx pairingPhrase password mailboxServer devMode insecure w
    = Some (out, w') ->
  now w <= now w' <=
    now w + Z.of_N (relayLatency env) + gracePeriod + maxWaitTime +
    connectorLatency env mailboxServer pairingPhrase + Z.of_N (getInfoLatency env).
Proof.
  unfold connectToLNC, connectorLatency.
  pose proof (N2Z.is_nonneg (relayLatency env)) as Hr.
  pose proof (N2Z.is_nonneg (getInfoLatency env)) as Hg.
  destruct (NewPrivateKey env).
  { intros H. injection H as _ <-.
    destruct (NewClientWebsocketConn env mailboxServer pairingPhrase) as [e|session];
      [|pose proof (N2Z.is_nonneg (lndConnectLatency session))];
      unfold gracePeriod, maxWaitTime; lia. }
  cbv zeta.
  destruct (configureTLS_frame mailboxServer devMode insecure w) as (Hnow & _).
  destruct (NewClientWebsocketConn env mailboxServer pairingPhrase) as [e|session].
  { intros H. injection H as _ <-. world_simpl. rewrite Hnow.
    unfold gracePeriod, maxWaitTime. lia. }
  pose proof (N2Z.is_nonneg (lndConnectLatency session)) as Hc.
  destruct (graceWait _ _) as [r1 w1] eqn:Hgrace.
  apply graceWait_clock in Hgrace. world_simpl. rewrite Hnow in Hgrace.
  destruct r1 as [e|].
  { intros H. injection H as _ <-. unfold maxWaitTime. lia. }
  destruct (lndConnect session) as [connector|].
  2:{ intros H. injection H as _ <-. unfold maxWaitTime. lia. }
  destruct (pollLoop env _ (now w1) pollFuel w1) as [[r2 w2]|] eqn:Hpoll; [|discriminate].
  pose proof (pollLoop_frame _ _ _ _ _ _ _ Hpoll) as (_ & _ & Hlo & _).
  apply pollLoop_clock in Hpoll;
    [|exists 0; ring | unfold maxWaitTime; lia].
  destruct r2 as [e|].
  { intros H. injection H as _ <-. lia. }
  destruct connector as [e|conn].
  { intros H. injection H as _ <-. world_simpl. lia. }
  destruct (lnrpc.GetInfo (NewLightningClient env conn));
    intros H; injection H as _ <-; world_simpl; lia.
Qed.

(** X4. Every connect request returns, and the clock has then advanced by
    at most the 3 s grace period and the 5 s of polling on top of what the
    relay, the connector and the liveness RPC took: the 45 s of the request
    context are never what the handler waits for. *)
Theorem connect_returns_within_bound env s ctx args w :
  exists res s' w',
    HandleConnect env s ctx args w = Some (res, s', w') /\
    now w <= now w' <=
      now w + Z.of_N (relayLatency env) + gracePeriod + maxWaitTime +
      connectorLatency env (mailboxServerOf env args) (stringArg args "pairingPhrase") +
      Z.of_N (getInfoLatency env).
Proof.
  assert (Hpos : 0 <= connectorLatency env (mailboxServerOf env args)
                        (stringArg args "pairingPhrase")).
  { unfold connectorLatency. destruct (NewClientWebsocketConn _ _ _); lia. }
  destruct (HandleConnect_outcome env s ctx args w)
    as [[msg Hrun] | (p & pw & out & w1 & Hp & _ & _ & _ & Hneg & Hrun)].
  { exists (NewToolResultError msg), s, w. split; [exact Hrun|].
    unfold gracePeriod, maxWaitTime. lia. }
  apply connectToLNC_clock in Hneg.
  unfold stringArg. rewrite Hp. cbn [default].
  rewrite Hrun. unfold concluded.
  destruct out as [err|[conn info]].
  - eexists _, _, _. split; [reflexivity|exact Hneg].
  - eexists _, _, _. split; [reflexivity|].
    destruct (ConnectionCallback s); world_simpl; exact Hneg.
Qed.

(** ** The connection and the manager *)

(** A connect request that succeeds went through the negotiation. *)
Lemma HandleConnect_success env s ctx args w text s' w' :
  HandleConnect env s ctx args w = Some (NewToolResultText text, s', w') ->
  exists pairingPhrase conn info w1,
    asString (args !! "pairingPhrase") = Some pairingPhrase /\
    provenance env (mailboxServerOf env args) pairingPhrase (inr (conn, info)) /\
    manager w1 = manager w /\
    text = connectedText info (mailboxServerOf env args) /\
    s' = {| Connection := Some conn; ConnectionCallback := ConnectionCallback s |} /\
    w' = match ConnectionCallback s with
         | Some callback => emit (EvCallback conn) (setManager (callback conn (manager w1)) w1)
         | None => w1
         end.
Proof.
  intros Hres.
  destruct (HandleConnect_outcome env s ctx args w)
    as [[msg Hrun] | (p & pw & out & w1 & Hp & _ & _ & _ & Hneg & Hrun)].
  { rewrite Hrun in Hres. discriminate Hres. }
  destruct (connectToLNC_frame env
              (lnccontext.Request (lnccontext.New ctx "lnc_connect" 45000 (now w)))
              p pw (mailboxServerOf env args) (devModeOf env args) (insecureOf env args) w)
    as (out0 & w0 & Hneg0 & Hm & Hprov & _).
  rewrite Hneg in Hneg0. injection Hneg0 as <- <-.
  rewrite Hrun in Hres. unfold concluded in Hres.
  destruct out as [err|[conn info]]; [discriminate Hres|].
  injection Hres as <- <- <-.
  exists p, conn, info, w1. auto 10.
Qed.

(** X5. A connect request that succeeds on the service the manager made
    leaves one connection everywhere, the one the connector gave: the relay
    session opened for the resolved address and the caller's phrase has a
    connector, that connector returned the connection, the service and the
    manager hold it, the text returned is made from the answer of that node,
    and every one of the fifteen query tools reads the client made from that
    connection. *)
Theorem managed_connect_wires_services env s ctx args w text s' w' :
  ConnectionCallback s = Some (onLNCConnectionEstablished env) ->
  HandleConnect env s ctx args w = Some (NewToolResultText text, s', w') ->
  exists pairingPhrase session conn info,
    asString (args !! "pairingPhrase") = Some pairingPhrase /\
    NewClientWebsocketConn env (mailboxServerOf env args) pairingPhrase = inr session /\
    lndConnect session = Some (inr conn) /\
    text = connectedText info (mailboxServerOf env args) /\
    lnrpc.GetInfo (NewLightningClient env conn) = inr info /\
    Connection s' = Some conn /\
    ConnectionCallback s' = ConnectionCallback s /\
    lncConnection (manager w') = Some conn /\
    forall tool, clientOf (manager w') tool = Some (NewLightningClient env conn).
Proof.
  intros Hcb Hres.
  destruct (HandleConnect_success _ _ _ _ _ _ _ _ Hres)
    as (p & conn & info & w1 & Hp & (session & Hrelay & Hconn & Hinfo) & _ & -> & -> & ->).
  rewrite Hcb. exists p, session, conn, info. world_simpl.
  split; [exact Hp|]. split; [exact Hrelay|]. split; [exact Hconn|].
  split; [reflexivity|]. split; [exact Hinfo|].
  split; [reflexivity|]. split; [reflexivity|]. split; [reflexivity|].
  intros tool. destruct tool; reflexivity.
Qed.

Lemma managed_connect_wires_services_witness :
  exists text s' w' pairingPhrase session conn info,
    HandleConnect reachable (managedService reachable) (lnccontext.Plain background)
      (connectArgs tenWords "secret") world0 = Some (NewToolResultText text, s', w') /\
    asString (connectArgs tenWords "secret" !! "pairingPhrase") = Some pairingPhrase /\
    NewClientWebsocketConn reachable
      (mailboxServerOf reachable (connectArgs tenWords "secret")) pairingPhrase
      = inr session /\
    lndConnect session = Some (inr conn) /\
    text = connectedText info (mailboxServerOf reachable (connectArgs tenWords "secret")) /\
    lnrpc.GetInfo (NewLightningClient reachable conn) = inr info /\
    Connection s' = Some conn /\
    ConnectionCallback s' = ConnectionCallback (managedService reachable) /\
    lncConnection (manager w') = Some conn /\
    forall tool, clientOf (manager w') tool = Some (NewLightningClient reachable conn).
Proof.
  assert (Hrun : exists text s' w',
    HandleConnect reachable (managedService reachable) (lnccontext.Plain background)
      (connectArgs tenWords "secret") world0 = Some (NewToolResultText text, s', w')).
  { eexists _, _, _. vm_compute. reflexivity. }
  destruct Hrun as (text & s' & w' & Hrun).
  exists text, s', w'.
  destruct (managed_connect_wires_services reachable (managedService reachable)
              (lnccontext.Plain background) (connectArgs tenWords "secret") world0
              text s' w' eq_refl Hrun) as (p & session & conn & info & H).
  exists p, session, conn, info. split; [exact Hrun|exact H].
Defined.

(** X6. Disconnecting closes the connection and clears the handle of
    the connection service, and nothing else: the manager is left as it was,
    it still holds the connection that was just closed, and every query tool
    still reads the client made from it. A query after the disconnect
    therefore passes the nil check: [lnc_get_info] is not answered with the
    not-connected error but puts its RPC on the closed connection, whatever
    comes back from there. *)
Theorem disconnect_leaves_services_connected env s ctx args w text s1 w1 :
  ConnectionCallback s = Some (onLNCConnectionEstablished env) ->
  HandleConnect env s ctx args w = Some (NewToolResultText text, s1, w1) ->
  exists conn s2 w2,
    HandleDisconnect env s1 w1 = (NewToolResultText disconnectedText, s2, w2) /\
    Connection s1 = Some conn /\
    Connection s2 = None /\
    trace w2 = trace w1 ++ [EvClose conn] /\
    manager w2 = manager w1 /\
    lncConnection (manager w2) = Some conn /\
    (forall tool, clientOf (manager w2) tool = Some (NewLightningClient env conn)) /\
    (forall query,
       snd (dispatch env (manager w2) lnc_get_info query) = [lnrpc.CallGetInfo] /\
       fst (dispatch env (manager w2) lnc_get_info query)
         <> NewToolResultError notConnected).
Proof.
  intros Hcb Hres.
  destruct (HandleConnect_success _ _ _ _ _ _ _ _ Hres)
    as (p & conn & info & w0 & _ & _ & _ & _ & -> & ->).
  rewrite Hcb. exists conn. unfold HandleDisconnect. cbn [Connection ConnectionCallback].
  eexists _, _. split.
  { destruct (Close env conn); reflexivity. }
  world_simpl. split; [reflexivity|].
  split; [destruct (Close env conn); reflexivity|].
  split; [reflexivity|]. split; [reflexivity|]. split; [reflexivity|].
  split; [intros tool; destruct tool; reflexivity|].
  intros query. cbn. unfold HandleGetInfo. cbn.
  destruct (lnrpc.GetInfo (NewLightningClient env conn)); cbn [fst snd];
    (split; [reflexivity|]); intros Heq; cbv [String.append] in Heq; discriminate Heq.
Qed.

Lemma disconnect_leaves_services_connected_witness :
  exists text s1 w1 conn s2 w2,
    HandleConnect reachable (managedService reachable) (lnccontext.Plain background)
      (connectArgs tenWords "secret") world0 = Some (NewToolResultText text, s1, w1) /\
    HandleDisconnect reachable s1 w1 = (NewToolResultText disconnectedText, s2, w2) /\
    Connection s1 = Some conn /\
    Connection s2 = None /\
    trace w2 = trace w1 ++ [EvClose conn] /\
    manager w2 = manager w1 /\
    lncConnection (manager w2) = Some conn /\
    (forall tool, clientOf (manager w2) tool = Some (NewLightningClient reachable conn)) /\
    (forall query,
       snd (dispatch reachable (manager w2) lnc_get_info query) = [lnrpc.CallGetInfo] /\
       fst (dispatch reachable (manager w2) lnc_get_info query)
         <> NewToolResultError notConnected).
Proof.
  assert (Hrun : exists text s1 w1,
    HandleConnect reachable (managedService reachable) (lnccontext.Plain background)
      (connectArgs tenWords "secret") world0 = Some (NewToolResultText text, s1, w1)).
  { eexists _, _, _. vm_compute. reflexivity. }
  destruct Hrun as (text & s1 & w1 & Hrun).
  exists text, s1, w1.
  destruct (disconnect_leaves_services_connected reachable (managedService reachable)
              (lnccontext.Plain background) (connectArgs tenWords "secret") world0
              text s1 w1 eq_refl Hrun) as (conn & s2 & w2 & H).
  exists conn, s2, w2. split; [exact Hrun|exact H].
Defined.

(** X7. Shutting the manager down after a disconnect closes the same
    connection a second time: the manager kept the reference the disconnect
    cleared in the service only. What [Close] then reports comes back as an
    error of code Unknown whose text ends in the report; the manager keeps
    the reference even then. *)
Theorem shutdown_closes_again env s ctx args w text s1 w1 :
  ConnectionCallback s = Some (onLNCConnectionEstablished env) ->
  HandleConnect env s ctx args w = Some (NewToolResultText text, s1, w1) ->
  exists conn err w3,
    Shutdown env (snd (HandleDisconnect env s1 w1)) = (err, w3) /\
    trace w3 = trace w1 ++ [EvClose conn; EvClose conn] /\
    closings conn (trace w3) = S (S (closings conn (trace w1))) /\
    lncConnection (manager w3) = Some conn /\
    errors.Error_ <$> err =
      (fun report => "[Unknown] failed to close LNC connection: " +:+ report)
        <$> Close env conn.
Proof.
  intros Hcb Hres.
  destruct (HandleConnect_success _ _ _ _ _ _ _ _ Hres)
    as (p & conn & info & w0 & _ & _ & _ & _ & -> & ->).
  rewrite Hcb. exists conn. unfold HandleDisconnect. cbn [Connection ConnectionCallback snd].
  unfold Shutdown. world_simpl. cbn [lncConnection onLNCConnectionEstablished].
  assert (Hcount : forall evs,
            closings conn (evs ++ [EvClose conn; EvClose conn]) = S (S (closings conn evs))).
  { intros evs. rewrite closings_app. unfold closings at 2. simpl.
    rewrite Nat.eqb_refl. simpl. lia. }
  destruct (Close env conn) as [report|]; cbn [snd].
  - eexists _, _. split; [reflexivity|]. world_simpl.
    rewrite <- (app_assoc _ [EvClose conn] [EvClose conn]). cbn [app].
    split; [reflexivity|]. split; [apply Hcount|]. split; reflexivity.
  - eexists _, _. split; [reflexivity|]. world_simpl.
    rewrite <- (app_assoc _ [EvClose conn] [EvClose conn]). cbn [app].
    split; [reflexivity|]. split; [apply Hcount|]. split; reflexivity.
Qed.

Lemma shutdown_closes_again_witness :
  exists text s1 w1 conn err w3,
    HandleConnect reachable (managedService reachable) (lnccontext.Plain background)
      (connectArgs tenWords "secret") world0 = Some (NewToolResultText text, s1, w1) /\
    Shutdown reachable (snd (HandleDisconnect reachable s1 w1)) = (err, w3) /\
    trace w3 = trace w1 ++ [EvClose conn; EvClose conn] /\
    closings conn (trace w3) = S (S (closings conn (trace w1))) /\
    lncConnection (manager w3) = Some conn /\
    errors.Error_ <$> err =
      (fun report => "[Unknown] failed to close LNC connection: " +:+ report)
        <$> Close reachable conn.
Proof.
  assert (Hrun : exists text s1 w1,
    HandleConnect reachable (managedService reachable) (lnccontext.Plain background)
      (connectArgs tenWords "secret") world0 = Some (NewToolResultText text, s1, w1)).
  { eexists _, _, _. vm_compute. reflexivity. }
  destruct Hrun as (text & s1 & w1 & Hrun).
  exists text, s1, w1.
  destruct (shutdown_closes_again reachable (managedService reachable)
              (lnccontext.Plain background) (connectArgs tenWords "secret") world0
              text s1 w1 eq_refl Hrun) as (conn & err & w3 & H).
  exists conn, err, w3. split; [exact Hrun|exact H].
Defined.

(** ** The word count *)

(** [strings.Split] gives one piece more than there are separators. *)
Lemma Split_length s sep :
  length (GoStrings.Split s sep) = S (countByte sep s).
Proof.
  induction s as [|c rest IH]; [reflexivity|].
  cbn [GoStrings.Split countByte]. destruct (Ascii.eqb c sep).
  - cbn [length]. rewrite IH. reflexivity.
  - destruct (GoStrings.Split rest sep) as [|piece pieces]; [discriminate IH|].
    cbn [length] in *. rewrite IH. reflexivity.
Qed.

(** X8. What the word count of a connect request comes to: a phrase given
    with a password is refused as not having 10 words exactly when, once
    trimmed, it does not hold exactly nine space bytes. Tabs and line breaks
    inside the phrase do not count, repeated spaces count each. *)
Theorem phrase_refused_unless_nine_spaces env s ctx args w pairingPhrase password :
  asString (args !! "pairingPhrase") = Some pairingPhrase ->
  asString (args !! "password") = Some password ->
  HandleConnect env s ctx args w =
    Some (NewToolResultError "pairingPhrase must contain exactly 10 words", s, w)
  <-> countByte " " (GoStrings.TrimSpace pairingPhrase) <> 9%nat.
Proof.
  intros Hp Hpw.
  assert (Hcount : length (words pairingPhrase) = 10%nat <->
                   countByte " " (GoStrings.TrimSpace pairingPhrase) = 9%nat).
  { unfold words. rewrite Split_length. lia. }
  split.
  - intros Hres Hnine. apply Hcount in Hnine.
    pose proof (HandleConnect_valid env s ctx args w _ _ Hp Hpw Hnine) as Hvalid.
    rewrite Hres in Hvalid.
    destruct (connectToLNC _ _ _ _ _ _ _ _) as [[[err|[conn info]] w1]|];
      discriminate Hvalid.
  - intros Hnine. unfold HandleConnect. rewrite Hp, Hpw.
    destruct (Nat.eqb_spec (length (words pairingPhrase)) 10) as [Hten|Hten];
      [apply Hcount in Hten; contradiction|reflexivity].
Qed.

Lemma phrase_refused_unless_nine_spaces_witness :
  HandleConnect reachable (managedService reachable) (lnccontext.Plain background)
    (connectArgs spacedTenWords "secret") world0 =
    Some (NewToolResultError "pairingPhrase must contain exactly 10 words",
          managedService reachable, world0)
  <-> countByte " " (GoStrings.TrimSpace spacedTenWords) <> 9%nat.
Proof.
  apply (phrase_refused_unless_nine_spaces reachable (managedService reachable)
           (lnccontext.Plain background) (connectArgs spacedTenWords "secret") world0
           spacedTenWords "secret"); vm_compute; reflexivity.
Defined.

(** ** The query services and their schemas *)

Lemma int32_integral env z : - 2 ^ 31 <= z < 2 ^ 31 -> int32 env (Q2Qc (inject_Z z)) = z.
Proof.
  intros [Hlo Hhi]. unfold int32. rewrite truncate_integral.
  apply Z.leb_le in Hlo. apply Z.ltb_lt in Hhi. rewrite Hlo, Hhi. reflexivity.
Qed.

Lemma isPositive_integral z : isPositive (Q2Qc (inject_Z z)) = (0 <? z).
Proof.
  unfold isPositive, Q2Qc. cbn [this].
  rewrite Qred_identity by (simpl; apply Z.gcd_1_r). reflexivity.
Qed.

(** The check [HandleDecodeInvoice] makes is [isValidBolt11]. *)
Lemma bolt11_check invoice :
  (String.length invoice <? 3)%nat || negb (GoStrings.HasPrefix invoice "ln")
  = negb (isValidBolt11 invoice).
Proof.
  unfold isValidBolt11.
  destruct invoice as [|a [|b [|c rest]]]; reflexivity.
Qed.

(** X9. Connected, the decode handler sends an invoice to the node exactly
    when the package's own [isValidBolt11] accepts it, and then as it came;
    one it does not accept is answered without any RPC. *)
Theorem decode_invoice_checks_format env s client args invoice :
  InvoiceService.LightningClient s = Some client ->
  asString (args !! "invoice") = Some invoice ->
  snd (HandleDecodeInvoice env s args) =
    (if isValidBolt11 invoice then [lnrpc.CallDecodePayReq invoice] else []) /\
  (isValidBolt11 invoice = false ->
   HandleDecodeInvoice env s args = (NewToolResultError "invalid BOLT11 invoice format", [])).
Proof.
  intros Hclient Hinvoice. unfold HandleDecodeInvoice.
  rewrite Hclient, Hinvoice, bolt11_check.
  destruct (isValidBolt11 invoice); cbn [negb].
  - split; [|discriminate]. unfold answer.
    destruct (lnrpc.DecodePayReq client invoice); reflexivity.
  - split; reflexivity.
Qed.

Lemma decode_invoice_checks_format_witness :
  snd (HandleDecodeInvoice reachable connectedInvoices
         (<["invoice" := VString "lnbc10m1pv9p9r4pp5"]> ∅)) =
    (if isValidBolt11 "lnbc10m1pv9p9r4pp5"
     then [lnrpc.CallDecodePayReq "lnbc10m1pv9p9r4pp5"] else []) /\
  (isValidBolt11 "lnbc10m1pv9p9r4pp5" = false ->
   HandleDecodeInvoice reachable connectedInvoices
     (<["invoice" := VString "lnbc10m1pv9p9r4pp5"]> ∅) =
     (NewToolResultError "invalid BOLT11 invoice format", [])).
Proof.
  apply (decode_invoice_checks_format reachable connectedInvoices
           (sampleClient (inr sampleInfo))); vm_compute; reflexivity.
Defined.

Lemma DecodeString_length : forall n s bytes,
  (String.length s <= n)%nat ->
  DecodeString s = Some bytes -> String.length s = (2 * length bytes)%nat.
Proof.
  induction n as [|n IH]; intros s bytes Hn Hdec.
  - destruct s; [|cbn in Hn; lia]. injection Hdec as <-. reflexivity.
  - destruct s as [|hi [|lo rest]]; cbn [DecodeString] in Hdec.
    + injection Hdec as <-. reflexivity.
    + discriminate Hdec.
    + destruct (hexDigit hi); [|discriminate Hdec].
      destruct (hexDigit lo); [|discriminate Hdec].
      destruct (DecodeString rest) as [bs|] eqn:Hrest; [|discriminate Hdec].
      injection Hdec as <-. cbn [String.length length] in *.
      rewrite (IH rest bs); [lia | lia | exact Hrest].
Qed.

(** X10. The lookup handler never sends anything but a 32-byte hash: every
    RPC it issues is one invoice lookup, for the bytes its 64 hexadecimal
    digits stand for. *)
Theorem lookup_invoice_sends_32_bytes env s args call :
  In call (snd (HandleLookupInvoice env s args)) ->
  exists paymentHash rhash,
    asString (args !! "payment_hash") = Some paymentHash /\
    DecodeString paymentHash = Some rhash /\
    length rhash = 32%nat /\
    snd (HandleLookupInvoice env s args) = [lnrpc.CallLookupInvoice rhash] /\
    call = lnrpc.CallLookupInvoice rhash.
Proof.
  unfold HandleLookupInvoice.
  destruct (InvoiceService.LightningClient s) as [client|]; [|intros []].
  destruct (asString (args !! "payment_hash")) as [paymentHash|]; [|intros []].
  destruct (Nat.eqb_spec (String.length paymentHash) 64) as [Hlen|Hlen]; [|intros []].
  cbn [negb]. destruct (DecodeString paymentHash) as [rhash|] eqn:Hdec; [|intros []].
  assert (Hcalls : snd (answer (lnrpc.CallLookupInvoice rhash) "Failed to lookup invoice: "
                          (fmtInvoice (formatter env)) (lnrpc.LookupInvoice client rhash))
                   = [lnrpc.CallLookupInvoice rhash]).
  { unfold answer. destruct (lnrpc.LookupInvoice client rhash); reflexivity. }
  rewrite Hcalls. intros [<-|[]].
  exists paymentHash, rhash. repeat split; auto.
  apply (DecodeString_length (String.length paymentHash)) in Hdec; lia.
Qed.

Lemma lookup_invoice_sends_32_bytes_witness :
  exists rhash,
    In (lnrpc.CallLookupInvoice rhash)
       (snd (HandleLookupInvoice reachable connectedInvoices
               (<["payment_hash" := VString
                    "00112233445566778899aabbccddeeff00112233445566778899AABBCCDDEEFF"]> ∅))) /\
    exists paymentHash rhash',
      asString ((<["payment_hash" := VString
                    "00112233445566778899aabbccddeeff00112233445566778899AABBCCDDEEFF"]> ∅
                 : gmap string Value) !! "payment_hash") = Some paymentHash /\
      DecodeString paymentHash = Some rhash' /\
      length rhash' = 32%nat /\
      snd (HandleLookupInvoice reachable connectedInvoices
             (<["payment_hash" := VString
                  "00112233445566778899aabbccddeeff00112233445566778899AABBCCDDEEFF"]> ∅))
        = [lnrpc.CallLookupInvoice rhash'] /\
      lnrpc.CallLookupInvoice rhash = lnrpc.CallLookupInvoice rhash'.
Proof.
  eexists. split; [vm_compute; left; reflexivity|].
  apply (lookup_invoice_sends_32_bytes reachable connectedInvoices).
  vm_compute. left. reflexivity.
Defined.

(** Without a positive target every target of the list is asked. *)
Lemma estimateFees_sweep env client targetConf targets :
  isPositive targetConf = false ->
  snd (estimateFees env client targetConf targets) = map lnrpc.CallEstimateFee targets.
Proof.
  intros Hneg. induction targets as [|target rest IH]; [reflexivity|].
  cbn [estimateFees map]. rewrite Hneg. cbn [andb].
  destruct (estimateFees env client targetConf rest) as [estimates calls].
  cbn [snd] in IH. destruct (lnrpc.EstimateFee client target); cbn [snd]; rewrite IH; reflexivity.
Qed.

(** With a positive target only that target is asked, the first time the
    list has it, and the list is read on only when the node did not answer. *)
Lemma estimateFees_single env client targetConf targets :
  isPositive targetConf = true ->
  NoDup targets ->
  snd (estimateFees env client targetConf targets) =
    (if existsb (Z.eqb (int32 env targetConf)) targets
     then [lnrpc.CallEstimateFee (int32 env targetConf)] else []) /\
  (existsb (Z.eqb (int32 env targetConf)) targets = false ->
   fst (estimateFees env client targetConf targets) = []).
Proof.
  intros Hpos Hnodup. induction Hnodup as [|target rest Hnotin _ IH]; [split; reflexivity|].
  cbn [estimateFees existsb]. rewrite Hpos. cbn [andb].
  rewrite (Z.eqb_sym (int32 env targetConf) target).
  destruct (Z.eqb_spec target (int32 env targetConf)) as [Heq|Hne]; cbn [negb orb].
  - assert (Hrest : existsb (Z.eqb (int32 env targetConf)) rest = false).
    { apply not_true_is_false. intros Hex. apply existsb_exists in Hex.
      destruct Hex as (x & Hin & Hx). apply Z.eqb_eq in Hx. subst x.
      rewrite <- Heq in Hin. apply Hnotin. apply list_elem_of_In. exact Hin. }
    destruct IH as [IHcalls IHnone]. rewrite Hrest in IHcalls.
    split; [|discriminate].
    destruct (lnrpc.EstimateFee client target); [|rewrite Heq; reflexivity].
    destruct (estimateFees env client targetConf rest) as [estimates calls].
    cbn [snd] in *. rewrite IHcalls, Heq. reflexivity.
  - exact IH.
Qed.

Lemma feeTargets_NoDup : NoDup feeTargets.
Proof.
  unfold feeTargets.
  repeat (apply NoDup_cons_2;
          [rewrite list_elem_of_In; simpl; intuition discriminate|]).
  apply NoDup_nil_2.
Qed.

(** X11. What the fee handler asks the node: for a target that is given
    and positive, that one target if it is one of 1, 3, 6, 10, 20, 50 and
    100, and nothing at all otherwise, in which case the answer is the
    failure to get estimates although no RPC was made; without a target, or
    with 0, target 6 alone; all seven targets only for a negative one. *)
Theorem estimate_fee_targets env s client args target :
  OnChainService.LightningClient s = Some client ->
  args !! "target_conf" = numberArg target ->
  (forall t, target = Some t -> - 2 ^ 31 <= t < 2 ^ 31) ->
  snd (HandleEstimateFee env s args) = feeCalls target /\
  (feeCalls target = [] ->
   HandleEstimateFee env s args = (NewToolResultError "Failed to get fee estimates", [])).
Proof.
  intros Hclient Harg Hrange.
  unfold HandleEstimateFee. rewrite Hclient. cbv zeta.
  assert (Htc : exists tc,
            (if isZero (floatArg args "target_conf") then Q2Qc 6
             else floatArg args "target_conf") = Q2Qc (inject_Z tc) /\
            tc = targetAsked target /\ - 2 ^ 31 <= tc < 2 ^ 31).
  { unfold floatArg. rewrite Harg. destruct target as [t|]; cbn.
    - rewrite isZero_integral. destruct (t =? 0) eqn:Hz.
      + exists 6. split; [reflexivity|]. split; [reflexivity|lia].
      + exists t. split; [reflexivity|]. split; [reflexivity|]. apply Hrange. reflexivity.
    - exists 6. split; [reflexivity|]. split; [reflexivity|lia]. }
  destruct Htc as (tc & -> & Htc & Hin).
  unfold feeCalls. cbv zeta. rewrite <- Htc.
  destruct (estimateFees env client (Q2Qc (inject_Z tc)) feeTargets)
    as [estimates calls] eqn:Hrun.
  destruct (Z.ltb_spec tc 0) as [Hneg|Hnonneg].
  - pose proof (estimateFees_sweep env client (Q2Qc (inject_Z tc)) feeTargets) as Hsweep.
    rewrite isPositive_integral, Hrun in Hsweep. cbn [snd] in Hsweep.
    rewrite Hsweep by (apply Z.ltb_ge; lia).
    split; [destruct estimates; reflexivity|discriminate].
  - assert (tc <> 0).
    { rewrite Htc. destruct target as [t|]; cbn; [|lia].
      destruct (Z.eqb_spec t 0); lia. }
    pose proof (estimateFees_single env client (Q2Qc (inject_Z tc)) feeTargets) as Hsingle.
    rewrite isPositive_integral, (int32_integral env tc Hin), Hrun in Hsingle.
    cbn [fst snd] in Hsingle.
    destruct Hsingle as [Hcalls Hnone]; [apply Z.ltb_lt; lia|apply feeTargets_NoDup|].
    rewrite Hcalls. split; [destruct estimates; reflexivity|].
    destruct (existsb (Z.eqb tc) feeTargets); [discriminate|].
    intros _. rewrite Hnone by reflexivity. reflexivity.
Qed.

Lemma estimate_fee_targets_witness :
  snd (HandleEstimateFee reachable connectedChain
         (<["target_conf" := VNumber (Q2Qc (inject_Z 2))]> ∅)) = feeCalls (Some 2) /\
  (feeCalls (Some 2) = [] ->
   HandleEstimateFee reachable connectedChain
     (<["target_conf" := VNumber (Q2Qc (inject_Z 2))]> ∅) =
     (NewToolResultError "Failed to get fee estimates", [])).
Proof.
  apply (estimate_fee_targets reachable connectedChain (sampleClient (inr sampleInfo))
           (<["target_conf" := VNumber (Q2Qc (inject_Z 2))]> ∅) (Some 2)).
  - reflexivity.
  - vm_compute. reflexivity.
  - intros t Ht. injection Ht as <-. lia.
Defined.

(** X12. The bounds the on-chain list handlers send, each from the
    arguments of its own tool: [min_confs] and [max_confs] for the unspent
    outputs, [start_height] and [end_height] for the transactions. They
    arrive converted to int32, an integral value in range unchanged, except
    that a maximum of 0 confirmations, like a missing one, becomes 9999999
    and an end height of 0, like a missing one, becomes -1; a missing lower
    bound is sent as 0, and the account as it came, empty when missing. *)
Theorem onchain_bounds_forwarded_or_defaulted env s client argsU argsT
    minConfs maxConfs startHeight endHeight :
  OnChainService.LightningClient s = Some client ->
  (forall z, minConfs = Some z \/ maxConfs = Some z \/
             startHeight = Some z \/ endHeight = Some z -> - 2 ^ 31 <= z < 2 ^ 31) ->
  argsU !! "min_confs" = numberArg minConfs ->
  argsU !! "max_confs" = numberArg maxConfs ->
  argsT !! "start_height" = numberArg startHeight ->
  argsT !! "end_height" = numberArg endHeight ->
  exists reqU reqT,
    snd (HandleListUnspent env s argsU) = [lnrpc.CallListUnspent reqU] /\
    lnrpc.MinConfs reqU = default 0 minConfs /\
    lnrpc.MaxConfs reqU = boundSent 9999999 maxConfs /\
    lnrpc.UnspentAccount reqU = stringArg argsU "account" /\
    snd (HandleGetTransactions env s argsT) = [lnrpc.CallGetTransactions reqT] /\
    lnrpc.StartHeight reqT = default 0 startHeight /\
    lnrpc.EndHeight reqT = boundSent (-1) endHeight /\
    lnrpc.TxAccount reqT = stringArg argsT "account".
Proof.
  intros Hclient Hrange Hmin Hmax Hstart Hend.
  assert (Hlower : forall (args : gmap string Value) k lower,
            (forall z, lower = Some z -> - 2 ^ 31 <= z < 2 ^ 31) ->
            args !! k = numberArg lower ->
            int32 env (floatArg args k) = default 0 lower).
  { intros args k lower Hr Hk. unfold floatArg. rewrite Hk. destruct lower as [z|]; cbn.
    - apply int32_integral, Hr. reflexivity.
    - apply (int32_integral env 0). lia. }
  assert (Hupper : forall (args : gmap string Value) k d upper,
            (forall z, upper = Some z -> - 2 ^ 31 <= z < 2 ^ 31) ->
            args !! k = numberArg upper -> - 2 ^ 31 <= d < 2 ^ 31 ->
            int32 env (if isZero (floatArg args k) then Q2Qc (inject_Z d) else floatArg args k)
            = boundSent d upper).
  { intros args k d upper Hr Hk Hd. unfold floatArg. rewrite Hk. destruct upper as [u|]; cbn.
    - rewrite isZero_integral. destruct (u =? 0).
      + apply int32_integral, Hd.
      + apply int32_integral, Hr. reflexivity.
    - apply int32_integral, Hd. }
  unfold HandleListUnspent, HandleGetTransactions. rewrite Hclient.
  unfold answer. eexists _, _.
  split; [destruct (lnrpc.ListUnspent client _); reflexivity|].
  split; [apply (Hlower argsU _ minConfs); [intros z Hz; apply Hrange; auto|exact Hmin]|].
  split; [apply (Hupper argsU _ 9999999 maxConfs);
          [intros z Hz; apply Hrange; auto|exact Hmax|lia]|].
  split; [reflexivity|].
  split; [destruct (lnrpc.GetTransactions client _); reflexivity|].
  split; [apply (Hlower argsT _ startHeight); [intros z Hz; apply Hrange; auto|exact Hstart]|].
  split; [apply (Hupper argsT _ (-1) endHeight);
          [intros z Hz; apply Hrange; auto 6|exact Hend|lia]|].
  reflexivity.
Qed.

Lemma onchain_bounds_forwarded_or_defaulted_witness :
  exists reqU reqT,
    snd (HandleListUnspent reachable connectedChain (unspentArgs 3 0))
      = [lnrpc.CallListUnspent reqU] /\
    lnrpc.MinConfs reqU = default 0 (Some 3) /\
    lnrpc.MaxConfs reqU = boundSent 9999999 (Some 0) /\
    lnrpc.UnspentAccount reqU = stringArg (unspentArgs 3 0) "account" /\
    snd (HandleGetTransactions reachable connectedChain (transactionArgs 700000 800000))
      = [lnrpc.CallGetTransactions reqT] /\
    lnrpc.StartHeight reqT = default 0 (Some 700000) /\
    lnrpc.EndHeight reqT = boundSent (-1) (Some 800000) /\
    lnrpc.TxAccount reqT = stringArg (transactionArgs 700000 800000) "account".
Proof.
  apply (onchain_bounds_forwarded_or_defaulted reachable connectedChain
           (sampleClient (inr sampleInfo)) (unspentArgs 3 0) (transactionArgs 700000 800000)
           (Some 3) (Some 0) (Some 700000) (Some 800000)).
  - reflexivity.
  - intros z [[= <-]|[[= <-]|[[= <-]|[= <-]]]]; lia.
  - vm_compute. reflexivity.
  - vm_compute. reflexivity.
  - vm_compute. reflexivity.
  - vm_compute. reflexivity.
Defined.

(** X13. A query handler reads no argument its tool does not declare: two
    requests that agree on the properties of the tool's input schema get the
    same answer and cause the same RPCs. *)
Theorem undeclared_arguments_ignored env m tool args args' :
  (forall k, In k (mcp.Properties (toolOf tool)) -> args !! k = args' !! k) ->
  dispatch env m tool args = dispatch env m tool args'.
Proof.
  intros Hagree.
  destruct tool; cbn [toolOf mcp.Properties] in Hagree; cbn [dispatch];
    [ unfold HandleDecodeInvoice | unfold HandleListInvoices | unfold HandleLookupInvoice
    | unfold HandleListChannels | unfold HandlePendingChannels
    | unfold HandleListPayments | unfold HandleTrackPayment
    | unfold HandleListUnspent | unfold HandleGetTransactions | unfold HandleEstimateFee
    | unfold HandleListPeers | unfold HandleDescribeGraph | unfold HandleGetNodeInfo
    | unfold HandleGetBalance | unfold HandleGetInfo ];
    unfold floatArg, boolArg, stringArg;
    repeat match goal with
      | |- context [args !! ?k] => rewrite (Hagree k) by (simpl; tauto)
      end;
    reflexivity.
Qed.

Lemma undeclared_arguments_ignored_witness :
  dispatch reachable (connectedManager reachable 7%nat) lnc_list_payments (pageArgs 5 20)
  = dispatch reachable (connectedManager reachable 7%nat) lnc_list_payments
      (<["payment_hash" := VString "ff"]> (pageArgs 5 20)).
Proof.
  apply (undeclared_arguments_ignored reachable (connectedManager reachable 7%nat)
           lnc_list_payments).
  intros k Hin. simpl in Hin.
  destruct Hin as [<-|[<-|[<-|[<-|[]]]]]; vm_compute; reflexivity.
Defined.

(** X14. What a tool's schema requires its handler enforces: connected, a
    request in which a required argument is missing, or is no string, is
    answered with the error naming that argument, and no RPC is made. *)
Theorem required_arguments_enforced env m tool client args k :
  clientOf m tool = Some client ->
  In k (mcp.Required (toolOf tool)) ->
  asString (args !! k) = None ->
  dispatch env m tool args = (NewToolResultError (k +:+ " is required"), []).
Proof.
  intros Hclient Hin Hmissing.
  destruct tool; cbn [toolOf mcp.Required In] in Hin; try contradiction;
    destruct Hin as [<-|[]]; cbn [clientOf] in Hclient; cbn [dispatch];
    [ unfold HandleDecodeInvoice | unfold HandleLookupInvoice
    | unfold HandleTrackPayment | unfold HandleGetNodeInfo ];
    rewrite Hclient, Hmissing; reflexivity.
Qed.

Lemma required_arguments_enforced_witness :
  dispatch reachable (connectedManager reachable 7%nat) lnc_track_payment
    (<["payment_hash" := VNumber (Q2Qc (inject_Z 5))]> ∅)
  = (NewToolResultError ("payment_hash" +:+ " is required"), []).
Proof.
  apply (required_arguments_enforced reachable (connectedManager reachable 7%nat)
           lnc_track_payment (NewLightningClient reachable 7%nat)).
  - reflexivity.
  - simpl. tauto.
  - vm_compute. reflexivity.
Defined.

(** X15. The payment tracker asks the node for its payment history with
    one and the same request, whatever the hash, and answers from that one
    page: with the first payment listed under the hash, compared as text, or
    that no payment was found. *)
Theorem track_payment_scans_history env s client args paymentHash resp :
  PaymentService.LightningClient s = Some client ->
  asString (args !! "payment_hash") = Some paymentHash ->
  String.length paymentHash = 64%nat ->
  lnrpc.ListPayments client historyRequest = inr resp ->
  snd (HandleTrackPayment env s args) = [lnrpc.CallListPayments historyRequest] /\
  ((exists before payment after,
      lnrpc.Payments resp = before ++ payment :: after /\
      lnrpc.PaymentHash payment = paymentHash /\
      Forall (fun p => lnrpc.PaymentHash p <> paymentHash) before /\
      fst (HandleTrackPayment env s args) =
        NewToolResultText (fmtTrackedPayment (formatter env) payment)) \/
   (Forall (fun p => lnrpc.PaymentHash p <> paymentHash) (lnrpc.Payments resp) /\
    fst (HandleTrackPayment env s args) = NewToolResultText paymentNotFound)).
Proof.
  intros Hclient Hhash Hlen Hresp. unfold HandleTrackPayment.
  rewrite Hclient, Hhash, Hlen. cbn [Nat.eqb negb].
  fold historyRequest. rewrite Hresp.
  assert (Hfind : forall payments,
            (exists before payment after,
               payments = before ++ payment :: after /\
               lnrpc.PaymentHash payment = paymentHash /\
               Forall (fun p => lnrpc.PaymentHash p <> paymentHash) before /\
               find (fun p => String.eqb (lnrpc.PaymentHash p) paymentHash) payments
                 = Some payment) \/
            (Forall (fun p => lnrpc.PaymentHash p <> paymentHash) payments /\
             find (fun p => String.eqb (lnrpc.PaymentHash p) paymentHash) payments = None)).
  { induction payments as [|p rest IH]; [right; split; [constructor|reflexivity]|].
    cbn [find]. destruct (String.eqb_spec (lnrpc.PaymentHash p) paymentHash) as [Heq|Hne].
    - left. exists [], p, rest. repeat split; auto.
    - destruct IH as [(before & payment & after & -> & Hp & Hbefore & Hfound)|[Hall Hnone]].
      + left. exists (p :: before), payment, after. repeat split; auto.
      + right. split; [constructor; assumption|exact Hnone]. }
  destruct (Hfind (lnrpc.Payments resp))
    as [(before & payment & after & Heq & Hp & Hbefore & ->)|[Hall ->]].
  - split; [reflexivity|]. left. exists before, payment, after. auto.
  - split; [reflexivity|]. right. split; [exact Hall|reflexivity].
Qed.

Lemma track_payment_scans_history_witness :
  snd (HandleTrackPayment reachable payingService (<["payment_hash" := VString sampleHash]> ∅))
    = [lnrpc.CallListPayments historyRequest] /\
  ((exists before payment after,
      [ {| lnrpc.PaymentHash := "ab"; lnrpc.paymentBody := "first" |};
        {| lnrpc.PaymentHash := sampleHash; lnrpc.paymentBody := "second" |};
        {| lnrpc.PaymentHash := sampleHash; lnrpc.paymentBody := "third" |} ]
        = before ++ payment :: after /\
      lnrpc.PaymentHash payment = sampleHash /\
      Forall (fun p => lnrpc.PaymentHash p <> sampleHash) before /\
      fst (HandleTrackPayment reachable payingService
             (<["payment_hash" := VString sampleHash]> ∅)) =
        NewToolResultText (fmtTrackedPayment (formatter reachable) payment)) \/
   (Forall (fun p => lnrpc.PaymentHash p <> sampleHash)
      [ {| lnrpc.PaymentHash := "ab"; lnrpc.paymentBody := "first" |};
        {| lnrpc.PaymentHash := sampleHash; lnrpc.paymentBody := "second" |};
        {| lnrpc.PaymentHash := sampleHash; lnrpc.paymentBody := "third" |} ] /\
    fst (HandleTrackPayment reachable payingService
           (<["payment_hash" := VString sampleHash]> ∅)) = NewToolResultText paymentNotFound)).
Proof.
  eapply (track_payment_scans_history reachable payingService _
            (<["payment_hash" := VString sampleHash]> ∅) sampleHash
            {| lnrpc.Payments := _; lnrpc.paymentsBody := "payments" |});
    vm_compute; reflexivity.
Defined.

(** X16. The connect handler reads no argument its tool does not declare:
    two requests that agree on the five properties of the schema are
    answered alike and act alike. *)
Theorem connect_reads_declared_arguments env s ctx args args' w :
  sameConnectArguments args args' ->
  HandleConnect env s ctx args w = HandleConnect env s ctx args' w.
Proof.
  intros Hagree. unfold sameConnectArguments in Hagree.
  cbn [ConnectTool mcp.Properties] in Hagree.
  unfold HandleConnect, mailboxServerOf, getMailboxServer, devModeOf, insecureOf, flagOf.
  repeat match goal with
    | |- context [args !! ?k] => rewrite (Hagree k) by (simpl; tauto)
    end.
  reflexivity.
Qed.

Lemma connect_reads_declared_arguments_witness :
  HandleConnect reachable (managedService reachable) (lnccontext.Plain background)
    (connectArgs tenWords "secret") world0
  = HandleConnect reachable (managedService reachable) (lnccontext.Plain background)
      (<["timeout" := VNumber (Q2Qc (inject_Z 1))]> (connectArgs tenWords "secret")) world0.
Proof.
  apply (connect_reads_declared_arguments reachable (managedService reachable)
           (lnccontext.Plain background)).
  intros k Hin. simpl in Hin.
  destruct Hin as [<-|[<-|[<-|[<-|[<-|[]]]]]]; vm_compute; reflexivity.
Defined.

(** ** Request contexts *)

(** X17. When a request context is done, as long as nobody cancelled it:
    made with a positive timeout, when its parent is done or the timeout has
    passed, whichever comes first; made with a timeout of zero or less, only
    when its parent is done, while [IsExpired] says yes from the instant
    after the deadline in both cases, so that for a positive timeout an
    expired context is done, and for the others it may be expired and never
    done. The time remaining and the time spent add up to the timeout.
    [Ensure] leaves a request context as it is and gives any other 30 s. *)
Theorem request_context_expiry parent op timeout t0 t :
  let rc := lnccontext.New parent op timeout t0 in
  lnccontext.Done rc t =
    ctxDone (lnccontext.contextOf parent) t || (0 <? timeout) && (t0 + timeout <=? t) /\
  lnccontext.IsExpired rc t = (t0 + timeout <? t) /\
  (0 < timeout -> lnccontext.IsExpired rc t = true -> lnccontext.Done rc t = true) /\
  lnccontext.TimeRemaining rc t + lnccontext.Duration rc t = timeout /\
  lnccontext.Ensure (lnccontext.Request rc) op t = rc /\
  (forall c, lnccontext.Ensure (lnccontext.Plain c) op t0
             = lnccontext.New (lnccontext.Plain c) op 30000 t0).
Proof.
  cbv zeta.
  assert (Hdone : lnccontext.Done (lnccontext.New parent op timeout t0) t =
                  ctxDone (lnccontext.contextOf parent) t
                  || (0 <? timeout) && (t0 + timeout <=? t)).
  { unfold lnccontext.Done, lnccontext.New. cbn [lnccontext.Ctx].
    destruct (0 <? timeout); [|rewrite orb_false_r; reflexivity].
    unfold WithTimeout, ctxDone.
    destruct (doneAt (lnccontext.contextOf parent)) as [d|] eqn:Hd.
    - destruct (Z.leb_spec d (t0 + timeout)); cbn [doneAt]; rewrite ?Hd;
        destruct (Z.leb_spec d t), (Z.leb_spec (t0 + timeout) t); cbn; try reflexivity; lia.
    - reflexivity. }
  split; [exact Hdone|]. split; [reflexivity|].
  split.
  - intros Hpos Hexp. rewrite Hdone.
    unfold lnccontext.IsExpired, lnccontext.New in Hexp. cbn [lnccontext.deadline] in Hexp.
    apply Z.ltb_lt in Hexp. apply Z.ltb_lt in Hpos. rewrite Hpos.
    replace (t0 + timeout <=? t) with true by (symmetry; apply Z.leb_le; lia).
    apply orb_true_r.
  - split.
    + unfold lnccontext.TimeRemaining, lnccontext.Duration, lnccontext.New.
      cbn [lnccontext.deadline lnccontext.startTime]. ring.
    + split; reflexivity.
Qed.

(** ** Errors and registration *)

Lemma String_default e :
  (9 <= e)%N -> errors.String_ e = "Unknown(" +:+ pretty e +:+ ")".
Proof.
  intros Hge. destruct e as [|p]; [lia|].
  destruct p as [[[[q|q|]|[q|q|]|]|[[q|q|]|[q|q|]|]|]|[[[q|q|]|[q|q|]|]|[[q|q|]|[q|q|]|]|]|];
    try lia; reflexivity.
Qed.

Lemma append_length s t :
  String.length (s +:+ t) = (String.length s + String.length t)%nat.
Proof.
  induction s as [|c s IH]; [reflexivity|].
  change (String c s +:+ t) with (String c (s +:+ t)). cbn [String.length].
  rewrite IH. reflexivity.
Qed.

Lemma append_cancel_r t : forall s1 s2, s1 +:+ t = s2 +:+ t -> s1 = s2.
Proof.
  induction s1 as [|a s1 IH]; intros [|b s2] Heq; [reflexivity| | |].
  - apply (f_equal String.length) in Heq.
    change ("" +:+ t) with t in Heq. rewrite append_length in Heq. cbn in Heq. lia.
  - apply (f_equal String.length) in Heq.
    change ("" +:+ t) with t in Heq. rewrite append_length in Heq. cbn in Heq. lia.
  - change (String a s1 +:+ t) with (String a (s1 +:+ t)) in Heq.
    change (String b s2 +:+ t) with (String b (s2 +:+ t)) in Heq.
    injection Heq as -> Heq. rewrite (IH s2 Heq). reflexivity.
Qed.

Lemma small_code e :
  (e < 9)%N ->
  e = errors.ErrCodeUnknown \/ e = errors.ErrCodeConnectionFailed \/
  e = errors.ErrCodeInvalidPairingPhrase \/ e = errors.ErrCodeTimeout \/
  e = errors.ErrCodeNotConnected \/ e = errors.ErrCodeInvalidInvoice \/
  e = errors.ErrCodeInsufficientBalance \/ e = errors.ErrCodeInvalidAddress \/
  e = errors.ErrCodeServerShutdown.
Proof.
  unfold errors.ErrCodeUnknown, errors.ErrCodeConnectionFailed,
    errors.ErrCodeInvalidPairingPhrase, errors.ErrCodeTimeout, errors.ErrCodeNotConnected,
    errors.ErrCodeInvalidInvoice, errors.ErrCodeInsufficientBalance,
    errors.ErrCodeInvalidAddress, errors.ErrCodeServerShutdown.
  lia.
Qed.

Lemma named_apart_from_numbered a b :
  (a < 9)%N -> (9 <= b)%N -> errors.String_ a <> errors.String_ b.
Proof.
  intros Ha Hb Heq. rewrite (String_default b Hb) in Heq.
  destruct (small_code a Ha) as [->|[->|[->|[->|[->|[->|[->|[->| ->]]]]]]]];
    cbv [errors.String_ errors.ErrCodeUnknown errors.ErrCodeConnectionFailed
         errors.ErrCodeInvalidPairingPhrase errors.ErrCodeTimeout errors.ErrCodeNotConnected
         errors.ErrCodeInvalidInvoice errors.ErrCodeInsufficientBalance
         errors.ErrCodeInvalidAddress errors.ErrCodeServerShutdown] in Heq;
    change ("Unknown(" +:+ pretty b +:+ ")")
      with (String "U" (String "n" (String "k" (String "n" (String "o" (String "w"
             (String "n" (String "(" (pretty b +:+ ")"))))))))) in Heq;
    discriminate Heq.
Qed.

(** X18. No two error codes print alike: the name [String] gives
    determines the code, for the nine named codes and for every other value
    of the type, and so does the bracketed prefix of an error's text. *)
Theorem error_codes_print_apart a b :
  errors.String_ a = errors.String_ b <-> a = b.
Proof.
  split; [|intros ->; reflexivity].
  intros Heq.
  destruct (N.lt_ge_cases a 9) as [Ha|Ha], (N.lt_ge_cases b 9) as [Hb|Hb].
  - destruct (small_code a Ha) as [->|[->|[->|[->|[->|[->|[->|[->| ->]]]]]]]];
      destruct (small_code b Hb) as [->|[->|[->|[->|[->|[->|[->|[->| ->]]]]]]]];
      try reflexivity; discriminate Heq.
  - destruct (named_apart_from_numbered a b Ha Hb Heq).
  - symmetry in Heq. destruct (named_apart_from_numbered b a Hb Ha Heq).
  - rewrite (String_default a Ha), (String_default b Hb) in Heq.
    apply (String.app_inj "Unknown(") in Heq.
    apply append_cancel_r in Heq. apply (inj pretty) in Heq. exact Heq.
Qed.

(** X19. Registration is all or nothing. Without a server,
    [RegisterTools] fails with an error of code Unknown and registers
    nothing. With one, it cannot fail and adds seventeen tools after those
    the server had: the connect and the disconnect handler and each of the
    fifteen query handlers, under names that begin with lnc_ and differ from
    one another, each with a schema that declares the arguments it
    requires. *)
Theorem register_tools_all_or_nothing (server : MCPServer) :
  (exists err,
     RegisterTools None = (Some err, None) /\
     errors.Error_ err = "[Unknown] MCP server cannot be nil") /\
  exists added,
    RegisterTools (Some server) = (None, Some (server ++ added)) /\
    length added = 17%nat /\
    NoDup (map (fun entry => mcp.Name (fst entry)) added) /\
    Forall (fun entry =>
              GoStrings.HasPrefix (mcp.Name (fst entry)) "lnc_" = true /\
              incl (mcp.Required (fst entry)) (mcp.Properties (fst entry))) added /\
    In ConnectHandler (map snd added) /\
    In DisconnectHandler (map snd added) /\
    forall tool, In (toolOf tool, QueryHandler tool) added.
Proof.
  split; [eexists; split; reflexivity|].
  unfold RegisterTools, AddTool. cbv zeta.
  repeat rewrite <- app_assoc. cbn [app].
  eexists. split; [reflexivity|].
  split; [reflexivity|].
  split; [apply (bool_decide_unpack _); vm_compute; reflexivity|].
  split.
  - repeat (apply Forall_cons; split;
            [split; [reflexivity|intros k Hin; simpl in *; tauto]|]).
    apply Forall_nil. exact I.
  - split; [simpl; tauto|]. split; [simpl; tauto|].
    intros tool. destruct tool; simpl; tauto.
Qed.
